(** * made.js (Python tools): interface data holder, defect dispatch,
      slab lookup, basis filtering

    A shallow embedding of
      - [src/py/mat3ra/made/tools/build/interface.py]  (InterfaceDataHolder),
      - [src/py/mat3ra/made/tools/build/defect/__init__.py]  (create_defect),
      - [src/py/mat3ra/made/tools/build/slab.py]  (SlabGenerator),
      - [src/py/mat3ra/made/tools/modify.py]  (filter_by_label),
      - [tests/py/unit/test_tools_build.py]  (the fixture materials).

    Conventions.  Python floats are idealised as exact rationals ([Q]); no
    NaN and no infinity.  Python exceptions are values of [PyError] carried
    by [Res].  Methods of a class that read or mutate [self] are computations
    in a state-and-exception monad over the object's fields; an exception
    leaves the state as it was when it was raised. *)

From Stdlib Require Import QArith Qabs.
From stdpp Require Import base list strings gmap sorting.

Open Scope Z_scope.

(* ===================================================================== *)
(** ** Python values: exceptions, lists, dicts, [sorted], [reduce] *)
(* ===================================================================== *)

Inductive PyError : Type :=
  | IndexError
  | KeyError
  | TypeError.

Inductive Res (A : Type) : Type :=
  | Ok (a : A)
  | Raise (e : PyError).
Arguments Ok {A} a.
Arguments Raise {A} e.

(** [l[i]] for a Python list: negative indices count from the end, anything
    outside [-len, len) raises IndexError. *)
Definition py_getitem {A} (l : list A) (i : Z) : Res A :=
  let n := Z.of_nat (length l) in
  let j := if i <? 0 then i + n else i in
  if (j <? 0) || (n <=? j) then Raise IndexError
  else match l !! Z.to_nat j with
       | Some x => Ok x
       | None => Raise IndexError
       end.

(** [l[start:stop]] (step 1): both ends are clamped, never raises. *)
Definition py_clamp (n : Z) (dflt : Z) (o : option Z) : Z :=
  match o with
  | None => dflt
  | Some i => let j := if i <? 0 then i + n else i in Z.max 0 (Z.min n j)
  end.

Definition py_slice {A} (l : list A) (start stop : option Z) : list A :=
  let n := Z.of_nat (length l) in
  let a := py_clamp n 0 start in
  let b := py_clamp n n stop in
  take (Z.to_nat (b - a)) (drop (Z.to_nat a) l).

(** [enumerate(l)]. *)
Definition enumerate {A} (l : list A) : list (nat * A) :=
  imap (λ idx x, (idx, x)) l.

(** A Python dict: keys are unique, iteration follows insertion order and
    assigning to an existing key keeps its position. *)
Section PyDict.
Context {K V : Type} `{EqDecision K}.

Definition PyDict : Type := list (K * V).

Fixpoint dict_get (d : PyDict) (k : K) : option V :=
    match d with
    | [] => None
    | (k', v) :: d' => if decide (k = k') then Some v else dict_get d' k
    end.

Fixpoint dict_set (d : PyDict) (k : K) (v : V) : PyDict :=
    match d with
    | [] => [(k, v)]
    | (k', v') :: d' =>
        if decide (k = k') then (k, v) :: d' else (k', v') :: dict_set d' k v
    end.

Definition dict_keys (d : PyDict) : list K := d.*1.
Definition dict_values (d : PyDict) : list V := d.*2.

(** [d[k]]: KeyError when the key is missing. *)
Definition dict_getitem (d : PyDict) (k : K) : Res V :=
    match dict_get d k with
    | Some v => Ok v
    | None => Raise KeyError
    end.
End PyDict.
Arguments PyDict : clear implicits.

(** [functools.reduce(f, it)] without an initial value: TypeError on an
    empty iterable, else a left fold seeded with the first item. *)
Definition py_reduce {A} (f : A → A → A) (it : list A) : Res A :=
  match it with
  | [] => Raise TypeError
  | x :: rest => Ok (fold_left f rest x)
  end.

(** [sorted(l, key=key)]: Python's sort is stable.  The functional content of
    any stable sort is the stable insertion sort below: an item is placed in
    front of the first already-placed item whose key is not smaller, and the
    already-placed items are those that came later in the input. *)
Section PySorted.
Context {A K : Type} (leb : K → K → bool) (key : A → K).

Fixpoint py_insert (x : A) (l : list A) : list A :=
    match l with
    | [] => [x]
    | y :: l' => if leb (key x) (key y) then x :: y :: l' else y :: py_insert x l'
    end.

Definition py_sorted (l : list A) : list A := foldr py_insert [] l.

(** Ascending keys. *)
Definition key_le (x y : A) : Prop := leb (key x) (key y) = true.

(** The order a stable sort by [key] produces from a list that was in
    [R]-order: ascending keys, and [R] kept between items whose keys tie. *)
Definition key_then (R : A → A → Prop) (x y : A) : Prop :=
  key_le x y ∧ (key_le y x → R x y).
End PySorted.

(* ===================================================================== *)
(** ** build/interface.py: interfaces and the InterfaceDataHolder *)
(* ===================================================================== *)

(** [TerminationType = Tuple[str, str]]. *)
Definition TerminationType : Type := string * string.

(** What the holder reads of a pymatgen [Interface]:
    [interface_properties["termination"]], [num_sites] and
    [interface_properties[StrainModes.mean_abs_strain]] (the only strain
    mode used by default).  [payload] stands for the rest of the structure,
    so that two candidates can agree on all three and still differ. *)
Record Interface : Type := mkInterface {
  termination : TerminationType;
  num_sites : nat;
  mean_abs_strain : Q;
  payload : nat
}.

Record InterfaceDataHolder : Type := mkHolder {
  data : PyDict TerminationType (list Interface);
  terminations : list TerminationType
}.

(** Methods of the holder: the state is [self]. *)
Definition HolderM (A : Type) : Type :=
  InterfaceDataHolder → Res A * InterfaceDataHolder.

Definition ret {A} (a : A) : HolderM A := λ self, (Ok a, self).

Definition bind {A B} (m : HolderM A) (f : A → HolderM B) : HolderM B :=
  λ self, match m self with
          | (Ok a, self') => f a self'
          | (Raise e, self') => (Raise e, self')
          end.

Definition lift {A} (r : Res A) : HolderM A := λ self, (r, self).
Definition self_data : HolderM (PyDict TerminationType (list Interface)) :=
  λ self, (Ok (data self), self).
Definition self_terminations : HolderM (list TerminationType) :=
  λ self, (Ok (terminations self), self).

Declare Scope holder_scope.
Delimit Scope holder_scope with holder.
Notation "x <- m ;; k" := (bind m (λ x, k))
  (at level 100, m at level 99, k at level 200, right associativity)
  : holder_scope.
Notation "m ;;; k" := (bind m (λ _, k))
  (at level 100, k at level 200, right associativity) : holder_scope.
Open Scope holder_scope.

(** [for x in l: body(x)]. *)
Fixpoint for_each {A} (l : list A) (body : A → HolderM unit) : HolderM unit :=
  match l with
  | [] => ret tt
  | x :: l' => body x ;;; for_each l' body
  end.

(** A termination argument is either an [int] position or the pair itself
    ([Union[int, TerminationType]]). *)
Inductive TerminationOrIndex : Type :=
  | ByIndex (i : Z)
  | ByKey (t : TerminationType).

(** The [slice_or_index_or_indices] argument
    ([Union[int, slice, List[int], None]]). *)
Inductive Selection : Type :=
  | SelNone
  | SelIndex (i : Z)
  | SelIndices (l : list Z)
  | SelSlice (start stop : option Z).

(** Modelled from the spec: [array_utils.filter_by_slice_or_index_or_indices]
    of the mat3ra.utils package is not under src/.  The spec says retrieval
    "supports index/slice/list-of-indices selection of the candidate list";
    with no selection ([None], the default) the list is returned as it is.
    Slices are modelled for step 1. *)
Definition filter_by_slice_or_index_or_indices
    (array : list Interface) (sel : Selection) : Res (list Interface) :=
  match sel with
  | SelNone => Ok array
  | SelIndex i =>
      match py_getitem array i with Ok x => Ok [x] | Raise e => Raise e end
  | SelIndices l =>
      foldr (λ i acc,
               match py_getitem array i, acc with
               | Ok x, Ok xs => Ok (x :: xs)
               | Raise e, _ => Raise e
               | _, Raise e => Raise e
               end) (Ok []) l
  | SelSlice start stop => Ok (py_slice array start stop)
  end.

(** [np.allclose(a, b)] on two finite scalars with numpy's defaults
    [rtol=1e-05], [atol=1e-08]:  |a - b| <= atol + rtol * |b|. *)
Definition np_rtol : Q := 1 # 100000.
Definition np_atol : Q := 1 # 100000000.

Definition np_allclose (a b : Q) : bool :=
  Qle_bool (Qabs (a - b)) (np_atol + np_rtol * Qabs b).

(** The key [np.mean(np.abs(x.interface_properties[strain_mode]))] of a
    scalar strain. *)
Definition strain_key (x : Interface) : Q := Qabs (mean_abs_strain x).

(** The local helper of [remove_duplicate_interfaces_for_termination]. *)
Definition are_interfaces_duplicate (interface1 interface2 : Interface) : bool :=
  Nat.eqb (num_sites interface1) (num_sites interface2)
  && np_allclose (mean_abs_strain interface1) (mean_abs_strain interface2).

(** The body of the loop [for interface in sorted_interfaces[1:]] and the
    list it builds, [filtered_interfaces]. *)
Definition dedupe_step (filtered_interfaces : list Interface)
    (interface : Interface) : list Interface :=
  if existsb (λ unique_interface,
                are_interfaces_duplicate interface unique_interface)
             filtered_interfaces
  then filtered_interfaces
  else filtered_interfaces ++ [interface].

Definition filter_duplicates (sorted_interfaces : list Interface)
    : list Interface :=
  fold_left dedupe_step (tail sorted_interfaces)
            (match sorted_interfaces with [] => [] | x :: _ => [x] end).

Section Holder.
(** [list(set(xs))]: the iteration order of a Python set is not fixed by
      the language; every definition below is given for any order. *)
Variable list_set : list TerminationType → list TerminationType.

Definition set_interfaces_for_termination (t : TerminationType)
      (interfaces : list Interface) : HolderM unit :=
    λ self, (Ok tt, mkHolder (dict_set (data self) t interfaces)
                             (terminations self)).

Definition append_termination (t : TerminationType) : HolderM unit :=
    λ self, (Ok tt, mkHolder (data self) (terminations self ++ [t])).

Definition add_termination (t : TerminationType) : HolderM unit :=
    ts <- self_terminations ;;
    if bool_decide (t ∈ ts) then ret tt
    else append_termination t ;;; set_interfaces_for_termination t [].

Definition get_termination (t : TerminationOrIndex)
      : HolderM TerminationType :=
    match t with
    | ByIndex i => ts <- self_terminations ;; lift (py_getitem ts i)
    | ByKey k => ret k
    end.

Definition get_interfaces_for_termination_or_its_index
      (termination_or_its_index : TerminationOrIndex)
      : HolderM (list Interface) :=
    t <- get_termination termination_or_its_index ;;
    d <- self_data ;;
    lift (dict_getitem d t).

Definition get_interfaces_for_termination
      (termination_or_its_index : TerminationOrIndex)
      (slice_or_index_or_indices : Selection) : HolderM (list Interface) :=
    interfaces <-
      get_interfaces_for_termination_or_its_index termination_or_its_index ;;
    lift (filter_by_slice_or_index_or_indices interfaces
                                              slice_or_index_or_indices).

Definition add_interfaces_for_termination (t : TerminationType)
      (interfaces : list Interface) : HolderM unit :=
    add_termination t ;;;
    old <- get_interfaces_for_termination (ByKey t) SelNone ;;
    set_interfaces_for_termination t (old ++ interfaces).

Definition get_interfaces_for_termination_sorted_by_strain
      (t : TerminationOrIndex) : HolderM (list Interface) :=
    l <- get_interfaces_for_termination t SelNone ;;
    ret (py_sorted Qle_bool strain_key l).

Definition get_interfaces_for_termination_sorted_by_size
      (t : TerminationOrIndex) : HolderM (list Interface) :=
    l <- get_interfaces_for_termination t SelNone ;;
    ret (py_sorted Nat.leb num_sites l).

Definition get_interfaces_for_termination_sorted_by_strain_and_size
      (t : TerminationOrIndex) : HolderM (list Interface) :=
    l <- get_interfaces_for_termination_sorted_by_strain t ;;
    ret (py_sorted Nat.leb num_sites l).

Definition sort_interfaces_for_all_terminations_by_strain_and_size
      : HolderM unit :=
    ts <- self_terminations ;;
    for_each ts (λ t,
      l <- get_interfaces_for_termination_sorted_by_strain_and_size (ByKey t) ;;
      set_interfaces_for_termination t l).

Definition remove_duplicate_interfaces_for_termination
      (t : TerminationType) : HolderM unit :=
    sorted_interfaces <-
      get_interfaces_for_termination_sorted_by_size (ByKey t) ;;
    set_interfaces_for_termination t (filter_duplicates sorted_interfaces).

Definition remove_duplicate_interfaces : HolderM unit :=
    ts <- self_terminations ;;
    for_each ts remove_duplicate_interfaces_for_termination.

(** [array_utils.convert_to_array_if_not(entries)] leaves a list as it
      is; [entries] is a list here. *)
Definition add_data_entries (entries : list Interface)
      (sort_interfaces_by_strain_and_size remove_duplicates : bool)
      : HolderM unit :=
    let all_terminations := termination <$> entries in
    let unique_terminations := list_set all_terminations in
    for_each unique_terminations (λ t,
      let entries_for_termination :=
        filter (λ entry, termination entry = t) entries in
      add_interfaces_for_termination t entries_for_termination) ;;;
    (if sort_interfaces_by_strain_and_size
     then sort_interfaces_for_all_terminations_by_strain_and_size
     else ret tt) ;;;
    (if remove_duplicates then remove_duplicate_interfaces else ret tt).

(** [InterfaceDataHolder(entries)]; [entries=None] is the empty list. *)
Definition InterfaceDataHolder_init (entries : option (list Interface))
      : Res unit * InterfaceDataHolder :=
    let entries := default [] entries in
    add_data_entries entries true true (mkHolder [] []).

Definition get_all_interfaces : HolderM (list Interface) :=
    d <- self_data ;;
    lift (py_reduce (λ a b, a ++ b) (dict_values d)).
End Holder.

(** *** What the stored lists are expected to satisfy *)

(** No retained candidate is a duplicate of one retained before it. *)
Definition deduplicated (l : list Interface) : Prop :=
  StronglySorted (λ kept later, are_interfaces_duplicate later kept = false) l.

(** Ascending site count; ascending strain among equal site counts. *)
Definition size_then_strain (x y : Interface) : Prop :=
  (num_sites x ≤ num_sites y)%nat
  ∧ (num_sites x = num_sites y → (strain_key x <= strain_key y)%Q).

(** Ascending strain; ascending site count among equal strains. *)
Definition strain_then_size (x y : Interface) : Prop :=
  (strain_key x <= strain_key y)%Q
  ∧ ((strain_key x == strain_key y)%Q → (num_sites x ≤ num_sites y)%nat).

(** What the constructor sets up and every method below keeps: the dict has
    exactly the listed terminations as its keys, in the same order, and no
    termination is listed twice. *)
Definition holder_inv (self : InterfaceDataHolder) : Prop :=
  dict_keys (data self) = terminations self ∧ NoDup (terminations self).

(* ===================================================================== *)
(** ** Materials: the basis as parallel arrays of {"id", "value"} items *)
(* ===================================================================== *)

Record WithId (V : Type) : Type := mkItem {
  item_id : nat;
  item_value : V
}.
Arguments mkItem {V} _ _.
Arguments item_id {V} _.
Arguments item_value {V} _.

(** A label is an [int] or a [str] ([Union[int, str]]); [1 == "1"] is False. *)
Inductive LabelValue : Type :=
  | LabelInt (z : Z)
  | LabelStr (s : string).

#[global] Instance LabelValue_eq_dec : EqDecision LabelValue.
Proof. solve_decision. Defined.

Record Basis : Type := mkBasis {
  elements : list (WithId string);
  coordinates : list (WithId (list Q));
  labels : list (WithId LabelValue)
}.

Record Material : Type := mkMaterial {
  name : string;
  basis : Basis
}.

(** Python objects are passed by reference: a material lives in a store and
    functions receive and return its address. *)
Abbreviation Ref := nat.
Abbreviation Store := (gmap Ref Material).

(* ===================================================================== *)
(** ** modify.py: filter_by_label *)
(* ===================================================================== *)

(** The three statements of the body, on the fields of the material. *)
Definition filter_by_label_body (material : Material) (label : LabelValue)
    : Material :=
  let labels_ := labels (basis material) in
  let indices :=
    (filter (λ p, item_value p.2 = label) (enumerate labels_)).*1 in
  let coordinates' :=
    (filter (λ p, p.1 ∈ indices)
            (enumerate (coordinates (basis material)))).*2 in
  let elements' :=
    (filter (λ p, p.1 ∈ indices)
            (enumerate (elements (basis material)))).*2 in
  mkMaterial (name material) (mkBasis elements' coordinates' labels_).

(** The label at position [idx] exists and has the value [label]. *)
Definition label_at_is (labels_ : list (WithId LabelValue))
    (label : LabelValue) (idx : nat) : bool :=
  match labels_ !! idx with
  | Some l => bool_decide (item_value l = label)
  | None => false
  end.

(** [filter_by_label(material, label)]: assigns to [material.basis[...]] of
    the object it was given and returns that object. *)
Definition filter_by_label (material : Ref) (label : LabelValue) (σ : Store)
    : Ref * Store :=
  (material, alter (λ m, filter_by_label_body m label) material σ).

(* ===================================================================== *)
(** ** build/defect/__init__.py: create_defect *)
(* ===================================================================== *)

Section DefectDispatch.
(** [PointDefectTypeEnum], [PointDefectBuilderParameters] and the three
      builder classes are declared in modules that are not under src/; they
      are parameters.  A builder object offers [get_material] and has a
      Python truth value. *)
Context {PointDefectTypeEnum : Type} `{EqDecision PointDefectTypeEnum}.
Variables VACANCY SUBSTITUTION INTERSTITIAL : PointDefectTypeEnum.
Variable PointDefectBuilderParameters : Type.

Record PointDefectConfiguration : Type := mkConfiguration {
    crystal : Material;
    defect_type : PointDefectTypeEnum
  }.

Record Builder : Type := mkBuilder {
    get_material : PointDefectConfiguration → Res Material;
    builder_truth : bool
  }.

Variables VacancyBuilder SubstitutionBuilder InterstitialBuilder
    : option PointDefectBuilderParameters → Builder.

(** The dict display [{VACANCY: ..., SUBSTITUTION: ..., INTERSTITIAL: ...}]. *)
Definition DEFECT_BUILDER_FACTORY
      (builder_parameters : option PointDefectBuilderParameters)
      : PyDict PointDefectTypeEnum Builder :=
    dict_set
      (dict_set
         (dict_set [] VACANCY (VacancyBuilder builder_parameters))
         SUBSTITUTION (SubstitutionBuilder builder_parameters))
      INTERSTITIAL (InterstitialBuilder builder_parameters).

Definition create_defect (configuration : PointDefectConfiguration)
      (builder_parameters : option PointDefectBuilderParameters)
      : Res Material :=
    match dict_getitem (DEFECT_BUILDER_FACTORY builder_parameters)
                       (defect_type configuration) with
    | Raise e => Raise e
    | Ok builder =>
        if builder_truth builder then get_material builder configuration
        else Ok (crystal configuration)
    end.
End DefectDispatch.

(* ===================================================================== *)
(** ** build/slab.py: SlabGenerator.get_slab_with_termination *)
(* ===================================================================== *)

Section Slab.
(** pymatgen's slab structures and [label_termination], the conversion
      [Material(from_pymatgen(.))] and [create_supercell] are external. *)
Variable Structure : Type.
Variable Matrix : Type.
Variable label_termination : Structure → string.
Variable from_pymatgen : Structure → Material.
Variable create_supercell : Material → Matrix → Material.

Record SlabGenerator : Type := mkSlabGenerator {
    _slab_structures : list Structure;
    xy_supercell_matrix : Matrix
  }.

(** The [for] loop with its early [return]; falling off the end is
      [return None]. *)
Fixpoint get_slab_with_termination_loop (xy : Matrix)
      (slab_structures : list Structure) (t : string) : option Material :=
    match slab_structures with
    | [] => None
    | slab_structure :: rest =>
        if decide (label_termination slab_structure = t)
        then Some (create_supercell (from_pymatgen slab_structure) xy)
        else get_slab_with_termination_loop xy rest t
    end.

Definition get_slab_with_termination (self : SlabGenerator) (t : string)
      : option Material :=
    get_slab_with_termination_loop (xy_supercell_matrix self)
                                   (_slab_structures self) t.
End Slab.
Arguments mkSlabGenerator {Structure Matrix} _ _.
Arguments _slab_structures {Structure Matrix} _.
Arguments xy_supercell_matrix {Structure Matrix} _.
Arguments get_slab_with_termination_loop {Structure Matrix} _ _ _ _ _ _.
Arguments get_slab_with_termination {Structure Matrix} _ _ _ _ _.

(* ===================================================================== *)
(** ** Further parts of the same files *)
(* ===================================================================== *)

(** What [list(set(xs))] gives whatever the iteration order: every member
    of [xs], once. *)
Definition set_semantics {A} (list_set : list A → list A) : Prop :=
  ∀ xs, NoDup (list_set xs) ∧ ∀ x, x ∈ list_set xs ↔ x ∈ xs.

(** The candidates of a key class of each sort key. *)
Definition same_strain (c : Q) (x : Interface) : Prop :=
  Qle_bool (strain_key x) c = true ∧ Qle_bool c (strain_key x) = true.
Definition same_size (n : nat) (x : Interface) : Prop :=
  Nat.leb (num_sites x) n = true ∧ Nat.leb n (num_sites x) = true.

#[global] Instance same_strain_dec c x : Decision (same_strain c x).
Proof. unfold same_strain. apply _. Defined.
#[global] Instance same_size_dec n x : Decision (same_size n x).
Proof. unfold same_size. apply _. Defined.

(** *** build/slab.py: what [SlabGenerator.__init__] derives *)

Section SlabInit.
Variable Structure : Type.
Variable Matrix : Type.
Variable label_termination : Structure → string.
Variable from_pymatgen : Structure → Material.
Variable create_supercell : Material → Matrix → Material.
(** The truth value of a pymatgen structure ([if slab_structure]). *)
Variable structure_truth : Structure → bool.
(** [list(set(...))] on termination labels. *)
Variable list_set : list string → list string.

(** [self.slabs], computed once from [self._slab_structures]. *)
Definition SlabGenerator_slabs (self : SlabGenerator Structure Matrix)
    : list Material :=
  (λ slab_structure,
     create_supercell (from_pymatgen slab_structure)
                      (xy_supercell_matrix self))
  <$> filter (λ slab_structure, structure_truth slab_structure)
             (_slab_structures self).

(** [self.terminations = self.get_terminations()]. *)
Definition get_terminations (self : SlabGenerator Structure Matrix)
    : list string :=
  list_set (label_termination
            <$> filter (λ slab, structure_truth slab)
                       (_slab_structures self)).
End SlabInit.
Arguments SlabGenerator_slabs {Structure Matrix} _ _ _ _.
Arguments get_terminations {Structure Matrix} _ _ _ _.

(** *** build/interface.py: the settings classes *)

Definition DEFAULT_MAX_AREA : Q := 400.

Record SlabParameters : Type := mkSlabParameters {
  miller_indices : Z * Z * Z;
  thickness : Z
}.

Record ZSLParameters : Type := mkZSLParameters {
  zsl_max_area : Q;
  max_area_tol : Q;
  max_length_tol : Q;
  max_angle_tol : Q
}.

(** [ZSLParameters.__init__] with its defaults. *)
Definition ZSLParameters_init (max_area : option Q) : ZSLParameters :=
  mkZSLParameters (default DEFAULT_MAX_AREA max_area)
                  (9 # 100) (3 # 100) (1 # 100).

(** A [ZSLParameters] object is shared by reference: the settings hold its
    address, and so does whoever passed it in (for the default argument,
    the function object itself, for every later call). *)
Abbreviation ZSLStore := (gmap Ref ZSLParameters).

Record InterfaceSettings : Type := mkInterfaceSettings {
  SubstrateParameters : SlabParameters;
  LayerParameters : SlabParameters;
  settings_max_area : Q;
  distance_z : Q;
  use_conventional_cell : bool;
  settings_ZSLParameters : Ref
}.

(** [self.ZSLParameters.max_area = value] on the object at an address. *)
Definition set_zsl_max_area (value : Q) (z : ZSLParameters) : ZSLParameters :=
  mkZSLParameters value (max_area_tol z) (max_length_tol z) (max_angle_tol z).

(** [InterfaceSettings.__init__]; [!=] on floats is taken on the rationals. *)
Definition InterfaceSettings_init
    (substrate layer : SlabParameters) (max_area distance_z_ : Q)
    (use_conventional_cell_ : bool) (zsl : Ref) (σ : ZSLStore)
    : InterfaceSettings * ZSLStore :=
  let self := mkInterfaceSettings substrate layer max_area distance_z_
                                  use_conventional_cell_ zsl in
  (self,
   if negb (Qeq_bool max_area DEFAULT_MAX_AREA)
   then alter (set_zsl_max_area max_area) zsl σ
   else σ).

(* ===================================================================== *)
(** ** Concrete data used in the examples below *)
(* ===================================================================== *)

(** [INTERFACE_TERMINATION] of tests/py/unit/fixtures.py. *)
Definition INTERFACE_TERMINATION : TerminationType :=
  ("Si_termination"%string, "Cu_termination"%string).

(** Three candidates of one size whose strains are 1, 1.00001 and 1.00002:
    neighbours are within numpy's tolerance of each other, the outer two are
    not. *)
Definition cand_1_00000 : Interface :=
  mkInterface INTERFACE_TERMINATION 8 (1 # 1) 0.
Definition cand_1_00001 : Interface :=
  mkInterface INTERFACE_TERMINATION 8 (100001 # 100000) 1.
Definition cand_1_00002 : Interface :=
  mkInterface INTERFACE_TERMINATION 8 (100002 # 100000) 2.

Definition holder_near_duplicates : InterfaceDataHolder :=
  mkHolder [(INTERFACE_TERMINATION,
             [cand_1_00000; cand_1_00001; cand_1_00002])]
           [INTERFACE_TERMINATION].

(** A large candidate with little strain and a small one with more. *)
Definition cand_large_relaxed : Interface :=
  mkInterface INTERFACE_TERMINATION 20 (1 # 10) 0.
Definition cand_small_strained : Interface :=
  mkInterface INTERFACE_TERMINATION 10 (1 # 2) 1.

Definition holder_two_sizes : InterfaceDataHolder :=
  mkHolder [(INTERFACE_TERMINATION, [cand_large_relaxed; cand_small_strained])]
           [INTERFACE_TERMINATION].

(** The materials of tests/py/unit/test_tools_build.py.  [section] holds the
    atoms 0 and 3 of cubic Ni with element 0 changed to Ge; [cavity] holds
    atoms 1 and 2 and the added atom 3, an S at the place of section's
    atom 3. *)
Definition half : Q := 1 # 2.

Definition section : Material :=
  mkMaterial "Ni"
    (mkBasis [mkItem 0 "Ge"%string; mkItem 3 "Ni"%string]
             [mkItem 0 [0; 0; 0]%Q; mkItem 3 [half; half; 0]%Q]
             []).

Definition cavity : Material :=
  mkMaterial "Ni"
    (mkBasis [mkItem 1 "Ni"%string; mkItem 2 "Ni"%string; mkItem 3 "S"%string]
             [mkItem 1 [0; half; half]%Q; mkItem 2 [half; 0; half]%Q;
              mkItem 3 [half; half; 0]%Q]
             []).

(** A material whose basis carries no labels, as the bases above. *)
Definition unlabelled_atom : Material :=
  mkMaterial "Ni"
    (mkBasis [mkItem 0 "Ni"%string] [mkItem 0 [0; 0; 0]%Q] []).

(** Two Si atoms, the first tagged 1 and the second tagged 2. *)
Definition tagged_pair : Material :=
  mkMaterial "Si"
    (mkBasis [mkItem 0 "Si"%string; mkItem 1 "Si"%string]
             [mkItem 0 [0; 0; 0]%Q; mkItem 1 [half; half; half]%Q]
             [mkItem 0 (LabelInt 1); mkItem 1 (LabelInt 2)]).

(** An instance of the defect dispatch: a defect type with one member that
    the factory does not list, and builders that rename the crystal. *)
Inductive SampleDefectType : Type :=
  | SampleVacancy
  | SampleSubstitution
  | SampleInterstitial
  | SampleUnlisted.

#[global] Instance SampleDefectType_eq_dec : EqDecision SampleDefectType.
Proof. solve_decision. Defined.

Definition sample_builder (tag : string) (_ : option unit)
    : Builder (PointDefectTypeEnum := SampleDefectType) :=
  mkBuilder (λ c, Ok (mkMaterial tag (basis (crystal c)))) true.

Definition sample_create_defect
    (c : PointDefectConfiguration (PointDefectTypeEnum := SampleDefectType))
    : Res Material :=
  create_defect SampleVacancy SampleSubstitution SampleInterstitial unit
    (sample_builder "vacancy") (sample_builder "substitution")
    (sample_builder "interstitial") c None.

(** An instance of the slab generator: a slab structure is represented by its
    termination label and a number. *)
Definition sample_slab_generator : SlabGenerator (string * nat) unit :=
  mkSlabGenerator
    [("Si_P4/mmm_1"%string, 0%nat); ("Si_P4/mmm_2"%string, 1%nat);
     ("Si_P4/mmm_1"%string, 2%nat)] tt.

Definition sample_get_slab (t : string) : option Material :=
  get_slab_with_termination fst
    (λ s, mkMaterial (fst s) (mkBasis [mkItem (snd s) "Si"%string] [] []))
    (λ m _, m) sample_slab_generator t.

(* ===================================================================== *)
(** * Properties *)
(* ===================================================================== *)

(** ** Python lists and dicts *)

Lemma py_getitem_out_of_range {A} (l : list A) (i : Z) :
  i < - Z.of_nat (length l) ∨ Z.of_nat (length l) ≤ i →
  py_getitem l i = Raise IndexError.
Proof.
  intros Hi. unfold py_getitem.
  destruct (Z.ltb_spec i 0) as [Hneg|Hpos].
  - destruct (Z.ltb_spec (i + Z.of_nat (length l)) 0); [done|lia].
  - destruct (Z.ltb_spec i 0); [lia|].
    destruct (Z.leb_spec (Z.of_nat (length l)) i); [done|lia].
Qed.


Section PyDictFacts.
Context {K V : Type} `{EqDecision K}.
Implicit Types (d : PyDict K V) (k : K) (v : V).

Lemma dict_get_set d k v k' :
  dict_get (dict_set d k v) k' = if decide (k' = k) then Some v else dict_get d k'.
Proof.
  induction d as [|[k0 v0] d IH]; simpl.
  - by destruct (decide (k' = k)).
  - destruct (decide (k = k0)) as [->|Hne]; simpl.
    + by destruct (decide (k' = k0)).
    + destruct (decide (k' = k0)) as [->|]; [|done].
      by destruct (decide (k0 = k)); [congruence|].
Qed.

Lemma dict_get_is_Some d k : is_Some (dict_get d k) ↔ k ∈ dict_keys d.
Proof.
  unfold dict_keys. induction d as [|[k0 v0] d IH]; simpl.
  - split; [by intros [? ?]|by intros ?%elem_of_nil].
  - destruct (decide (k = k0)) as [->|Hne].
    + split; [intros _; left|by eauto].
    + rewrite IH. split; [by right|]. by intros [?|?]%elem_of_cons.
Qed.

Lemma dict_get_None d k : dict_get d k = None ↔ k ∉ dict_keys d.
Proof. rewrite <- dict_get_is_Some, eq_None_not_Some. tauto. Qed.

Lemma dict_keys_set_present d k v :
  k ∈ dict_keys d → dict_keys (dict_set d k v) = dict_keys d.
Proof.
  unfold dict_keys. induction d as [|[k0 v0] d IH]; simpl.
  - by intros ?%elem_of_nil.
  - intros Hin. destruct (decide (k = k0)) as [->|Hne]; simpl; [done|].
    f_equal. apply IH. by apply elem_of_cons in Hin as [?|?].
Qed.

Lemma dict_keys_set_absent d k v :
  k ∉ dict_keys d → dict_keys (dict_set d k v) = dict_keys d ++ [k].
Proof.
  unfold dict_keys. induction d as [|[k0 v0] d IH]; simpl; [done|].
  intros Hin. apply not_elem_of_cons in Hin as [Hne Hin].
  destruct (decide (k = k0)); [done|]. simpl. f_equal. by apply IH.
Qed.

End PyDictFacts.

Lemma py_reduce_app {A} (ls : list (list A)) :
  ls ≠ [] → py_reduce (λ a b, a ++ b) ls = Ok (concat ls).
Proof.
  destruct ls as [|x rest]; [done|]. intros _. simpl. f_equal.
  revert x. induction rest as [|y rest IH]; intros x; simpl.
  - by rewrite app_nil_r.
  - by rewrite IH, <- app_assoc.
Qed.

(** ** Lists in order *)

Lemma StronglySorted_mono {A} (R1 R2 : A → A → Prop) (l : list A) :
  (∀ x y, R1 x y → R2 x y) → StronglySorted R1 l → StronglySorted R2 l.
Proof.
  intros HR. induction 1 as [|x l Hl IH Hx]; constructor; [done|].
  eapply Forall_impl; [exact Hx|]. intros y. apply HR.
Qed.

Lemma StronglySorted_sublist {A} (R : A → A → Prop) (k l : list A) :
  k `sublist_of` l → StronglySorted R l → StronglySorted R k.
Proof.
  induction 1 as [|x k l Hkl IH|x k l Hkl IH]; intros Hl; [done|..];
    apply StronglySorted_inv in Hl as [Hl Hx].
  - constructor; [by apply IH|].
    rewrite Forall_forall in Hx |- *. intros y Hy. apply Hx.
    by eapply elem_of_sublist.
  - by apply IH.
Qed.

Lemma StronglySorted_snoc {A} (R : A → A → Prop) (l : list A) (y : A) :
  StronglySorted R l → Forall (λ x, R x y) l → StronglySorted R (l ++ [y]).
Proof.
  intros Hl Hy. apply StronglySorted_app_2; [|done|repeat constructor].
  intros x1 x2 Hx1 ->%list_elem_of_singleton.
  by eapply Forall_forall in Hy.
Qed.

(** ** [sorted]: a stable sort *)

Section PySortedFacts.
Context {A K : Type} (leb : K → K → bool) (key : A → K).
Hypothesis leb_total : ∀ a b, leb a b = true ∨ leb b a = true.
Hypothesis leb_trans : ∀ a b c, leb a b = true → leb b c = true → leb a c = true.

Local Abbreviation key_le := (key_le leb key).
Local Abbreviation key_then := (key_then leb key).

Lemma py_insert_perm x l : py_insert leb key x l ≡ₚ x :: l.
Proof.
  induction l as [|y l IH]; simpl; [done|].
  destruct (leb (key x) (key y)); [done|].
  rewrite IH. apply Permutation_swap.
Qed.

Lemma py_sorted_perm l : py_sorted leb key l ≡ₚ l.
Proof.
  induction l as [|x l IH]; simpl; [done|].
  by rewrite py_insert_perm, IH.
Qed.

Lemma py_insert_key_then (R : A → A → Prop) x s :
  StronglySorted (key_then R) s →
  Forall (R x) s →
  StronglySorted (key_then R) (py_insert leb key x s).
Proof.
  induction s as [|y s IH]; simpl; intros Hs HR.
  - repeat constructor.
  - apply StronglySorted_inv in Hs as [Hs Hy].
    apply Forall_cons in HR as [HRy HR].
    destruct (leb (key x) (key y)) eqn:Hxy.
    + constructor; [by constructor|].
      constructor; [by split|].
      rewrite Forall_forall in Hy, HR |- *. intros z Hz. split.
      * eapply leb_trans; [exact Hxy|]. by apply Hy.
      * intros _. by apply HR.
    + constructor; [by apply IH|].
      rewrite py_insert_perm. constructor; [|done].
      split.
      * destruct (leb_total (key x) (key y)); [congruence|done].
      * unfold key_le. congruence.
Qed.

Lemma py_sorted_key_then (R : A → A → Prop) l :
  StronglySorted R l → StronglySorted (key_then R) (py_sorted leb key l).
Proof.
  induction l as [|x l IH]; simpl; intros Hl; [constructor|].
  apply StronglySorted_inv in Hl as [Hl Hx].
  apply py_insert_key_then; [by apply IH|].
  by rewrite py_sorted_perm.
Qed.

Lemma StronglySorted_always (l : list A) : StronglySorted (λ _ _, True) l.
Proof. induction l; constructor; [done|]. by apply Forall_true. Qed.

Lemma py_sorted_sorted l : StronglySorted key_le (py_sorted leb key l).
Proof.
  eapply StronglySorted_mono;
    [|apply (py_sorted_key_then (λ _ _, True)), StronglySorted_always].
  by intros x y [? _].
Qed.

(** Sorting a list that is already in key order changes nothing. *)
Lemma py_sorted_id l : StronglySorted key_le l → py_sorted leb key l = l.
Proof.
  induction l as [|x l IH]; simpl; intros Hl; [done|].
  apply StronglySorted_inv in Hl as [Hl Hx].
  rewrite IH by done. destruct l as [|y l]; simpl; [done|].
  apply Forall_cons in Hx as [Hxy _]. unfold key_le in Hxy. by rewrite Hxy.
Qed.

(** Stability in its usual form: the items of any one key class come out in
    the order they went in. *)
Lemma py_insert_stable (P : A → Prop) `{∀ x, Decision (P x)} x s :
  (∀ y, P x → P y → y ∈ s → leb (key x) (key y) = true) →
  filter P (py_insert leb key x s) = filter P (x :: s).
Proof.
  induction s as [|y s IH]; simpl; intros Hle; [done|].
  destruct (leb (key x) (key y)) eqn:Hxy; [done|].
  rewrite !filter_cons. rewrite IH by (intros; apply Hle; [done|done|by right]).
  rewrite filter_cons.
  destruct (decide (P y)) as [Py|]; [|done].
  destruct (decide (P x)) as [Px|]; [|done].
  rewrite Hle in Hxy; [done|done|done|left].
Qed.

Lemma py_sorted_stable (k : K) l :
  filter (λ x, leb (key x) k = true ∧ leb k (key x) = true)
         (py_sorted leb key l)
  = filter (λ x, leb (key x) k = true ∧ leb k (key x) = true) l.
Proof.
  induction l as [|x l IH]; simpl; [done|].
  rewrite py_insert_stable.
  - by rewrite !filter_cons, IH.
  - intros y [Hx1 Hx2] [Hy1 Hy2] _. by eapply leb_trans.
Qed.
End PySortedFacts.

Lemma Qle_bool_total (a b : Q) : Qle_bool a b = true ∨ Qle_bool b a = true.
Proof.
  rewrite !Qle_bool_iff. destruct (Qlt_le_dec a b) as [?%Qlt_le_weak|?]; auto.
Qed.

Lemma Qle_bool_trans (a b c : Q) :
  Qle_bool a b = true → Qle_bool b c = true → Qle_bool a c = true.
Proof. rewrite !Qle_bool_iff. apply Qle_trans. Qed.

Lemma Nat_leb_total (a b : nat) : Nat.leb a b = true ∨ Nat.leb b a = true.
Proof. rewrite !Nat.leb_le. lia. Qed.

Lemma Nat_leb_trans (a b c : nat) :
  Nat.leb a b = true → Nat.leb b c = true → Nat.leb a c = true.
Proof. rewrite !Nat.leb_le. lia. Qed.

(** ** The greedy duplicate filter *)

Lemma existsb_false_Forall {A} (f : A → bool) (l : list A) :
  existsb f l = false ↔ Forall (λ x, f x = false) l.
Proof.
  induction l as [|x l IH]; simpl.
  - split; [constructor|done].
  - rewrite orb_false_iff, IH, Forall_cons. tauto.
Qed.

Lemma existsb_true_elem_of {A} (f : A → bool) (l : list A) :
  existsb f l = true ↔ ∃ x, x ∈ l ∧ f x = true.
Proof.
  rewrite existsb_exists. split; intros (x & Hx & Hf); exists x;
    (split; [by apply list_elem_of_In|done]).
Qed.

Lemma dedupe_step_prefix acc y : acc `prefix_of` dedupe_step acc y.
Proof.
  unfold dedupe_step. destruct (existsb _ acc); [done|]. by apply prefix_app_r.
Qed.

Lemma dedupe_fold_prefix l acc : acc `prefix_of` fold_left dedupe_step l acc.
Proof.
  revert acc. induction l as [|y l IH]; intros acc; simpl; [done|].
  etrans; [apply (dedupe_step_prefix acc y)|apply IH].
Qed.

Lemma dedupe_fold_sublist l acc :
  fold_left dedupe_step l acc `sublist_of` acc ++ l.
Proof.
  revert acc. induction l as [|y l IH]; intros acc; simpl.
  - by rewrite app_nil_r.
  - etrans; [apply IH|]. unfold dedupe_step. destruct (existsb _ acc).
    + apply sublist_app; [done|]. by apply sublist_cons.
    + by rewrite <- app_assoc.
Qed.

Lemma dedupe_step_deduplicated acc y :
  deduplicated acc → deduplicated (dedupe_step acc y).
Proof.
  unfold dedupe_step. intros Hacc.
  destruct (existsb _ acc) eqn:Hex; [done|].
  apply StronglySorted_snoc; [done|]. by apply existsb_false_Forall in Hex.
Qed.

Lemma dedupe_fold_deduplicated l acc :
  deduplicated acc → deduplicated (fold_left dedupe_step l acc).
Proof.
  revert acc. induction l as [|y l IH]; intros acc Hacc; simpl; [done|].
  by apply IH, dedupe_step_deduplicated.
Qed.

(** Whatever the loop has seen is retained or duplicates something that was
    retained before it. *)
Lemma dedupe_fold_cover l acc y :
  y ∈ l →
  y ∈ fold_left dedupe_step l acc
  ∨ ∃ x, x ∈ fold_left dedupe_step l acc ∧ are_interfaces_duplicate y x = true.
Proof.
  revert acc. induction l as [|z l IH]; intros acc Hy; simpl.
  - by apply elem_of_nil in Hy.
  - apply elem_of_cons in Hy as [->|Hy]; [|by apply IH].
    pose proof (dedupe_fold_prefix l (dedupe_step acc z)) as [rest Hrest].
    rewrite Hrest. unfold dedupe_step.
    destruct (existsb _ acc) eqn:Hex.
    + right. apply existsb_true_elem_of in Hex as (x & Hx & Hdup).
      exists x. split; [|done]. apply elem_of_app. by left.
    + left. rewrite !elem_of_app, list_elem_of_singleton. auto.
Qed.

Lemma filter_duplicates_sublist l : filter_duplicates l `sublist_of` l.
Proof.
  unfold filter_duplicates. destruct l as [|x l]; simpl; [done|].
  apply (dedupe_fold_sublist l [x]).
Qed.

Lemma filter_duplicates_head l : head (filter_duplicates l) = head l.
Proof.
  unfold filter_duplicates. destruct l as [|x l]; simpl; [done|].
  by destruct (dedupe_fold_prefix l [x]) as [rest ->].
Qed.

Lemma filter_duplicates_deduplicated l : deduplicated (filter_duplicates l).
Proof.
  unfold filter_duplicates. apply dedupe_fold_deduplicated.
  destruct l; repeat constructor.
Qed.

Lemma filter_duplicates_cover l y :
  y ∈ l →
  y ∈ filter_duplicates l
  ∨ ∃ x, x ∈ filter_duplicates l ∧ are_interfaces_duplicate y x = true.
Proof.
  unfold filter_duplicates. destruct l as [|z l]; simpl.
  - by intros ?%elem_of_nil.
  - intros [->|Hy]%elem_of_cons; [|by apply dedupe_fold_cover].
    left. destruct (dedupe_fold_prefix l [z]) as [rest ->]. left.
Qed.

(** The candidate after a non-empty prefix [p] is appended exactly when no
    candidate retained from [p] is its duplicate. *)
Lemma filter_duplicates_snoc p y :
  p ≠ [] → filter_duplicates (p ++ [y]) = dedupe_step (filter_duplicates p) y.
Proof.
  unfold filter_duplicates. destruct p as [|x p]; [done|]. intros _. simpl.
  by rewrite fold_left_app.
Qed.

Lemma filter_duplicates_prefix p s :
  filter_duplicates p `prefix_of` filter_duplicates (p ++ s).
Proof.
  unfold filter_duplicates. destruct p as [|x p]; simpl.
  - apply prefix_nil.
  - rewrite fold_left_app. apply dedupe_fold_prefix.
Qed.

(** ** Running the holder's methods *)

Lemma bind_ok {A B} (m : HolderM A) (f : A → HolderM B) self a self' :
  m self = (Ok a, self') → bind m f self = f a self'.
Proof. unfold bind. by intros ->. Qed.

Lemma get_interfaces_for_termination_by_key self t :
  get_interfaces_for_termination (ByKey t) SelNone self
  = (match dict_get (data self) t with
     | Some l => Ok l
     | None => Raise KeyError
     end, self).
Proof.
  unfold get_interfaces_for_termination,
    get_interfaces_for_termination_or_its_index, get_termination,
    self_data, bind, ret, lift, dict_getitem; simpl.
  by destruct (dict_get (data self) t).
Qed.

(** A loop over distinct, present terminations whose body replaces a group
    [l] by [f l] rewrites exactly the visited groups. *)
Lemma for_each_update (f : list Interface → list Interface)
    (body : TerminationType → HolderM unit) :
  (∀ t self,
     body t self
     = match dict_get (data self) t with
       | Some l => (Ok tt, mkHolder (dict_set (data self) t (f l))
                                    (terminations self))
       | None => (Raise KeyError, self)
       end) →
  ∀ ts self,
    NoDup ts →
    (∀ t, t ∈ ts → t ∈ dict_keys (data self)) →
    ∃ self',
      for_each ts body self = (Ok tt, self')
      ∧ terminations self' = terminations self
      ∧ dict_keys (data self') = dict_keys (data self)
      ∧ ∀ k, dict_get (data self') k
             = if bool_decide (k ∈ ts) then f <$> dict_get (data self) k
               else dict_get (data self) k.
Proof.
  intros Hbody ts. induction ts as [|t ts IH]; intros self Hnd Hin; simpl.
  - exists self. repeat split; try done.
  - apply NoDup_cons in Hnd as [Ht Hnd].
    assert (Hpresent : t ∈ dict_keys (data self)) by (apply Hin; left).
    pose proof Hpresent as [l Hl]%dict_get_is_Some.
    set (self1 := mkHolder (dict_set (data self) t (f l)) (terminations self)).
    assert (Hrun : body t self = (Ok tt, self1)) by (by rewrite Hbody, Hl).
    destruct (IH self1) as (self' & Hloop & Hts & Hkeys & Hget); [done|..].
    { intros t' Ht'. simpl. rewrite dict_keys_set_present by done.
      apply Hin. by right. }
    exists self'. rewrite (bind_ok _ _ _ _ _ Hrun).
    split; [done|]. split; [done|]. split.
    { rewrite Hkeys. simpl. by apply dict_keys_set_present. }
    intros k. rewrite Hget. simpl. rewrite dict_get_set.
    destruct (decide (k = t)) as [->|Hne].
    + rewrite bool_decide_eq_false_2 by done.
      rewrite bool_decide_eq_true_2 by left. by rewrite Hl.
    + destruct (decide (k ∈ ts)) as [Hk|Hk].
      * rewrite !bool_decide_eq_true_2; [done|by right|done].
      * rewrite !bool_decide_eq_false_2; [done| |done].
        by intros [?|?]%elem_of_cons.
Qed.

(** On a well-formed holder such a loop over [self.terminations] rewrites
    every group. *)
Lemma for_each_termination_update (f : list Interface → list Interface)
    (body : TerminationType → HolderM unit) self :
  (∀ t self,
     body t self
     = match dict_get (data self) t with
       | Some l => (Ok tt, mkHolder (dict_set (data self) t (f l))
                                    (terminations self))
       | None => (Raise KeyError, self)
       end) →
  holder_inv self →
  ∃ self',
    for_each (terminations self) body self = (Ok tt, self')
    ∧ holder_inv self'
    ∧ terminations self' = terminations self
    ∧ ∀ k, dict_get (data self') k = f <$> dict_get (data self) k.
Proof.
  intros Hbody [Hkeys Hnd].
  destruct (for_each_update f body Hbody (terminations self) self)
    as (self' & Hrun & Hts & Hkeys' & Hget); [done|by rewrite Hkeys|].
  exists self'. split; [done|]. split; [|split; [done|]].
  { unfold holder_inv. by rewrite Hkeys', Hts. }
  intros k. rewrite Hget. case_bool_decide as Hk; [done|].
  rewrite <- Hkeys in Hk. apply dict_get_None in Hk. by rewrite Hk.
Qed.

Lemma sort_interfaces_for_all_terminations_run self :
  holder_inv self →
  ∃ self',
    sort_interfaces_for_all_terminations_by_strain_and_size self
    = (Ok tt, self')
    ∧ holder_inv self'
    ∧ terminations self' = terminations self
    ∧ ∀ k, dict_get (data self') k
           = (λ l, py_sorted Nat.leb num_sites
                     (py_sorted Qle_bool strain_key l))
             <$> dict_get (data self) k.
Proof.
  intros Hinv. unfold sort_interfaces_for_all_terminations_by_strain_and_size.
  rewrite (bind_ok _ _ self (terminations self) self) by done.
  apply for_each_termination_update; [|done].
  intros t s.
  unfold get_interfaces_for_termination_sorted_by_strain_and_size,
    get_interfaces_for_termination_sorted_by_strain.
  unfold bind at 1 2 3. rewrite get_interfaces_for_termination_by_key.
  by destruct (dict_get (data s) t).
Qed.

Lemma remove_duplicate_interfaces_run self :
  holder_inv self →
  ∃ self',
    remove_duplicate_interfaces self = (Ok tt, self')
    ∧ holder_inv self'
    ∧ terminations self' = terminations self
    ∧ ∀ k, dict_get (data self') k
           = (λ l, filter_duplicates (py_sorted Nat.leb num_sites l))
             <$> dict_get (data self) k.
Proof.
  intros Hinv. unfold remove_duplicate_interfaces.
  rewrite (bind_ok _ _ self (terminations self) self) by done.
  apply for_each_termination_update; [|done].
  intros t s.
  unfold remove_duplicate_interfaces_for_termination,
    get_interfaces_for_termination_sorted_by_size.
  unfold bind at 1 2. rewrite get_interfaces_for_termination_by_key.
  by destruct (dict_get (data s) t).
Qed.

Lemma add_termination_run self t :
  holder_inv self →
  ∃ self',
    add_termination t self = (Ok tt, self')
    ∧ holder_inv self'
    ∧ t ∈ terminations self'
    ∧ ∀ k, dict_get (data self') k
           = if decide (k = t) then Some (default [] (dict_get (data self) t))
             else dict_get (data self) k.
Proof.
  intros [Hkeys Hnd]. unfold add_termination.
  rewrite (bind_ok _ _ self (terminations self) self) by done.
  case_bool_decide as Ht.
  - exists self. split; [done|]. split; [done|]. split; [done|].
    intros k. destruct (decide (k = t)) as [->|]; [|done].
    rewrite <- Hkeys in Ht. by apply dict_get_is_Some in Ht as [l ->].
  - eexists. split; [reflexivity|]. simpl.
    assert (Habsent : t ∉ dict_keys (data self)) by (by rewrite Hkeys).
    split; [split; simpl|split].
    + by rewrite dict_keys_set_absent, Hkeys.
    + apply NoDup_app. split; [done|]. split; [|apply NoDup_singleton].
      by intros x Hx ->%list_elem_of_singleton.
    + apply elem_of_app. right. left.
    + intros k. rewrite dict_get_set. destruct (decide (k = t)); [|done].
      apply dict_get_None in Habsent. by rewrite Habsent.
Qed.

Lemma add_interfaces_for_termination_run self t interfaces :
  holder_inv self →
  ∃ self',
    add_interfaces_for_termination t interfaces self = (Ok tt, self')
    ∧ holder_inv self'
    ∧ ∀ k, dict_get (data self') k
           = if decide (k = t)
             then Some (default [] (dict_get (data self) t) ++ interfaces)
             else dict_get (data self) k.
Proof.
  intros Hinv. unfold add_interfaces_for_termination.
  destruct (add_termination_run self t Hinv)
    as (self1 & Hrun & [Hkeys Hnd] & Ht & Hget).
  rewrite (bind_ok _ _ _ _ _ Hrun).
  unfold bind at 1. rewrite get_interfaces_for_termination_by_key.
  pose proof (Hget t) as Hgt. rewrite decide_True in Hgt by done.
  rewrite Hgt. eexists. split; [reflexivity|]. simpl. split; [split; simpl|].
  - rewrite dict_keys_set_present; [done|]. by rewrite Hkeys.
  - done.
  - intros k. rewrite dict_get_set. destruct (decide (k = t)); [done|].
    rewrite Hget. by rewrite decide_False.
Qed.

Lemma add_interfaces_loop_run (group : TerminationType → list Interface)
    ts self :
  holder_inv self →
  ∃ self',
    for_each ts (λ t, add_interfaces_for_termination t (group t)) self
    = (Ok tt, self')
    ∧ holder_inv self'.
Proof.
  revert self. induction ts as [|t ts IH]; intros self Hinv; simpl.
  - by exists self.
  - destruct (add_interfaces_for_termination_run self t (group t) Hinv)
      as (self1 & Hrun & Hinv1 & _).
    rewrite (bind_ok _ _ _ _ _ Hrun). by apply IH.
Qed.

Lemma holder_inv_empty : holder_inv (mkHolder [] []).
Proof. split; [done|]. apply NoDup_nil_2. Qed.

(** ** The order of a group after the two sorts *)

Lemma two_pass_sort_order l :
  StronglySorted size_then_strain
    (py_sorted Nat.leb num_sites (py_sorted Qle_bool strain_key l)).
Proof.
  eapply StronglySorted_mono;
    [|apply (py_sorted_key_then Nat.leb num_sites Nat_leb_total Nat_leb_trans),
        (py_sorted_sorted Qle_bool strain_key Qle_bool_total Qle_bool_trans)].
  intros x y [Hxy Htie]. unfold key_le in *. split.
  - by apply Nat.leb_le.
  - intros Heq. apply Qle_bool_iff, Htie, Nat.leb_le. lia.
Qed.

Lemma size_then_strain_sorted_by_size l :
  StronglySorted size_then_strain l →
  py_sorted Nat.leb num_sites l = l.
Proof.
  intros Hl. apply py_sorted_id.
  eapply StronglySorted_mono; [|exact Hl].
  intros x y [Hxy _]. by apply Nat.leb_le.
Qed.

(* ===================================================================== *)
(** * The InterfaceDataHolder: duplicates, order, retrieval *)
(* ===================================================================== *)

Lemma holder_near_duplicates_inv : holder_inv holder_near_duplicates.
Proof. split; [done|]. apply NoDup_singleton. Qed.

Lemma holder_two_sizes_inv : holder_inv holder_two_sizes.
Proof. split; [done|]. apply NoDup_singleton. Qed.

(** C1 (as amended).  [remove_duplicate_interfaces] succeeds on a well-formed
    holder and, for every termination group [l], stores a list [kept] such
    that: the group is first put in ascending site-count order ([sorted]);
    [kept] is a sub-sequence of [sorted] that starts with its first
    candidate; the candidate [y] that follows a non-empty prefix [p] of
    [sorted] is appended exactly when no candidate retained from [p] is its
    duplicate (same site count and strain within tolerance); hence no
    retained candidate is a duplicate of one retained before it, and every
    candidate that was dropped is a duplicate of a retained one. *)
Theorem remove_duplicate_interfaces_greedy self :
  holder_inv self →
  ∃ self',
    remove_duplicate_interfaces self = (Ok tt, self')
    ∧ terminations self' = terminations self
    ∧ ∀ t l, dict_get (data self) t = Some l →
        let sorted := py_sorted Nat.leb num_sites l in
        ∃ kept,
          dict_get (data self') t = Some kept
          ∧ sorted ≡ₚ l
          ∧ StronglySorted (λ x y, (num_sites x ≤ num_sites y)%nat) sorted
          ∧ kept `sublist_of` sorted
          ∧ head kept = head sorted
          ∧ (∀ p y s, sorted = p ++ y :: s → p ≠ [] →
               (if existsb (λ u, are_interfaces_duplicate y u)
                           (filter_duplicates p)
                then filter_duplicates p
                else filter_duplicates p ++ [y]) `prefix_of` kept)
          ∧ deduplicated kept
          ∧ ∀ y, y ∈ sorted →
              y ∈ kept
              ∨ ∃ x, x ∈ kept ∧ are_interfaces_duplicate y x = true.
Proof.
  intros Hinv.
  destruct (remove_duplicate_interfaces_run self Hinv)
    as (self' & Hrun & _ & Hts & Hget).
  exists self'. split; [done|]. split; [done|].
  intros t l Hl sorted. exists (filter_duplicates sorted).
  split; [by rewrite Hget, Hl|].
  split; [apply py_sorted_perm|].
  split.
  { eapply StronglySorted_mono;
      [|apply (py_sorted_sorted Nat.leb num_sites Nat_leb_total Nat_leb_trans)].
    intros x y Hxy. by apply Nat.leb_le. }
  split; [apply filter_duplicates_sublist|].
  split; [apply filter_duplicates_head|].
  split.
  { intros p y s Hsplit Hp.
    change (dedupe_step (filter_duplicates p) y
              `prefix_of` filter_duplicates sorted).
    rewrite <- (filter_duplicates_snoc p y Hp), Hsplit.
    rewrite (cons_middle y p s), app_assoc.
    apply filter_duplicates_prefix. }
  split; [apply filter_duplicates_deduplicated|].
  apply filter_duplicates_cover.
Qed.

Lemma remove_duplicate_interfaces_greedy_witness :
  holder_inv holder_near_duplicates
  ∧ ∃ self',
      remove_duplicate_interfaces holder_near_duplicates = (Ok tt, self')
      ∧ terminations self' = [INTERFACE_TERMINATION]
      ∧ ∃ kept, dict_get (data self') INTERFACE_TERMINATION = Some kept
                ∧ deduplicated kept.
Proof.
  split; [exact holder_near_duplicates_inv|].
  destruct (remove_duplicate_interfaces_greedy holder_near_duplicates
              holder_near_duplicates_inv) as (self' & Hrun & Hts & Hgroups).
  exists self'. split; [exact Hrun|]. split; [exact Hts|].
  destruct (Hgroups INTERFACE_TERMINATION
              [cand_1_00000; cand_1_00001; cand_1_00002] eq_refl)
    as (kept & Hkept & _ & _ & _ & _ & _ & Hdd & _).
  exists kept. split; [exact Hkept|exact Hdd].
Defined.

(** The run on the three near-duplicates: the middle one is dropped against
    the first, and the last one, which is within tolerance of the middle one
    only, is retained. *)
Example remove_duplicate_interfaces_near_duplicates :
  remove_duplicate_interfaces holder_near_duplicates
  = (Ok tt, mkHolder [(INTERFACE_TERMINATION, [cand_1_00000; cand_1_00002])]
                     [INTERFACE_TERMINATION]).
Proof. reflexivity. Qed.

(** C1 (as stated) fails.  It is not the case that of any two candidates of
    equal site count with strains within tolerance (in both directions of
    the test) only the first in size order is retained: 1.00001 and 1.00002
    are such a pair, the first of them is dropped and the second retained. *)
Lemma first_of_near_duplicates_not_always_retained :
  ¬ (∀ self self' t l kept p x m y s,
       holder_inv self →
       remove_duplicate_interfaces self = (Ok tt, self') →
       dict_get (data self) t = Some l →
       dict_get (data self') t = Some kept →
       py_sorted Nat.leb num_sites l = p ++ x :: m ++ y :: s →
       num_sites x = num_sites y →
       np_allclose (mean_abs_strain y) (mean_abs_strain x) = true →
       np_allclose (mean_abs_strain x) (mean_abs_strain y) = true →
       x ∈ kept ∧ y ∉ kept).
Proof.
  intros Hclaim.
  destruct (Hclaim holder_near_duplicates _ INTERFACE_TERMINATION _
              [cand_1_00000; cand_1_00002]
              [cand_1_00000] cand_1_00001 [] cand_1_00002 []
              holder_near_duplicates_inv
              remove_duplicate_interfaces_near_duplicates
              eq_refl eq_refl eq_refl eq_refl eq_refl eq_refl)
    as [Hin _].
  apply elem_of_cons in Hin as [Heq|Hin]; [discriminate Heq|].
  apply elem_of_cons in Hin as [Heq|Hin]; [discriminate Heq|].
  by apply elem_of_nil in Hin.
Qed.

(** C2 (as amended).  For every termination group [l] (reached by key or by
    index), [get_interfaces_for_termination_sorted_by_strain_and_size]
    returns a rearrangement of [l], leaves the holder as it is, and the list
    is non-decreasing in site count and, among candidates of equal site
    count, non-decreasing in mean absolute strain. *)
Theorem sorted_by_strain_and_size_is_size_major self t l :
  get_interfaces_for_termination t SelNone self = (Ok l, self) →
  ∃ l',
    get_interfaces_for_termination_sorted_by_strain_and_size t self
    = (Ok l', self)
    ∧ l' ≡ₚ l
    ∧ StronglySorted size_then_strain l'.
Proof.
  intros Hget.
  exists (py_sorted Nat.leb num_sites (py_sorted Qle_bool strain_key l)).
  split; [|split].
  - unfold get_interfaces_for_termination_sorted_by_strain_and_size,
      get_interfaces_for_termination_sorted_by_strain.
    unfold bind at 1 2. by rewrite Hget.
  - by rewrite !py_sorted_perm.
  - apply two_pass_sort_order.
Qed.

Lemma sorted_by_strain_and_size_is_size_major_witness :
  ∃ l',
    get_interfaces_for_termination_sorted_by_strain_and_size
      (ByIndex 0) holder_two_sizes = (Ok l', holder_two_sizes)
    ∧ l' ≡ₚ [cand_large_relaxed; cand_small_strained]
    ∧ StronglySorted size_then_strain l'.
Proof.
  apply (sorted_by_strain_and_size_is_size_major holder_two_sizes (ByIndex 0)
           [cand_large_relaxed; cand_small_strained]).
  reflexivity.
Defined.

Example sorted_by_strain_and_size_two_sizes :
  get_interfaces_for_termination_sorted_by_strain_and_size
    (ByKey INTERFACE_TERMINATION) holder_two_sizes
  = (Ok [cand_small_strained; cand_large_relaxed], holder_two_sizes).
Proof. reflexivity. Qed.

Lemma small_strained_not_before_large_relaxed :
  ¬ strain_then_size cand_small_strained cand_large_relaxed.
Proof. intros [Hle _]. vm_compute in Hle. by apply Hle. Qed.

(** C2 (as stated) fails.  The returned list is not always non-decreasing in
    strain: a 10-site candidate of strain 0.5 comes out before a 20-site
    candidate of strain 0.1. *)
Lemma sorted_by_strain_and_size_not_strain_major :
  ¬ (∀ self t l',
       get_interfaces_for_termination_sorted_by_strain_and_size t self
       = (Ok l', self) →
       StronglySorted strain_then_size l').
Proof.
  intros Hclaim.
  pose proof (Hclaim _ _ _ sorted_by_strain_and_size_two_sizes) as Hsorted.
  apply StronglySorted_inv in Hsorted as [_ Hhead].
  apply Forall_cons in Hhead as [Hbad _].
  by apply small_strained_not_before_large_relaxed.
Qed.

(** C3 (as amended).  Constructing a holder from any entries succeeds, and so
    does [add_data_entries] with its default flags on a well-formed holder;
    afterwards the holder is well-formed and every stored list is
    deduplicated (no retained candidate has the site count of, and a strain
    within tolerance of, a candidate retained before it) and is in ascending
    site-count order with ascending strain among equal site counts.  This
    holds for every iteration order of the set of terminations. *)
Theorem add_data_entries_deduplicated_and_sorted
    (list_set : list TerminationType → list TerminationType) :
  (∀ entries,
     ∃ self',
       InterfaceDataHolder_init list_set entries = (Ok tt, self')
       ∧ holder_inv self'
       ∧ ∀ t l, dict_get (data self') t = Some l →
           deduplicated l ∧ StronglySorted size_then_strain l)
  ∧ (∀ entries self,
       holder_inv self →
       ∃ self',
         add_data_entries list_set entries true true self = (Ok tt, self')
         ∧ holder_inv self'
         ∧ ∀ t l, dict_get (data self') t = Some l →
             deduplicated l ∧ StronglySorted size_then_strain l).
Proof.
  assert (Hadd : ∀ entries self,
       holder_inv self →
       ∃ self',
         add_data_entries list_set entries true true self = (Ok tt, self')
         ∧ holder_inv self'
         ∧ ∀ t l, dict_get (data self') t = Some l →
             deduplicated l ∧ StronglySorted size_then_strain l).
  { intros entries self Hinv. unfold add_data_entries.
    destruct (add_interfaces_loop_run
                (λ t, filter (λ entry, termination entry = t) entries)
                (list_set (termination <$> entries)) self Hinv)
      as (self1 & Hrun1 & Hinv1).
    rewrite (bind_ok _ _ _ _ _ Hrun1).
    destruct (sort_interfaces_for_all_terminations_run self1 Hinv1)
      as (self2 & Hrun2 & Hinv2 & _ & Hget2).
    rewrite (bind_ok _ _ _ _ _ Hrun2).
    destruct (remove_duplicate_interfaces_run self2 Hinv2)
      as (self3 & Hrun3 & Hinv3 & _ & Hget3).
    exists self3. split; [done|]. split; [done|].
    intros t l. rewrite Hget3, Hget2.
    destruct (dict_get (data self1) t) as [l1|]; simpl; [|done].
    intros [= <-].
    pose proof (two_pass_sort_order l1) as Hsorted.
    rewrite (size_then_strain_sorted_by_size _ Hsorted).
    split; [apply filter_duplicates_deduplicated|].
    eapply StronglySorted_sublist; [apply filter_duplicates_sublist|done]. }
  split; [|exact Hadd].
  intros entries. unfold InterfaceDataHolder_init.
  apply Hadd, holder_inv_empty.
Qed.

Lemma add_data_entries_deduplicated_and_sorted_witness :
  holder_inv holder_two_sizes
  ∧ ∃ self',
      add_data_entries remove_dups [cand_1_00001; cand_1_00000] true true
        holder_two_sizes = (Ok tt, self')
      ∧ holder_inv self'
      ∧ ∀ t l, dict_get (data self') t = Some l →
          deduplicated l ∧ StronglySorted size_then_strain l.
Proof.
  split; [exact holder_two_sizes_inv|].
  exact (proj2 (add_data_entries_deduplicated_and_sorted remove_dups)
           [cand_1_00001; cand_1_00000] holder_two_sizes
           holder_two_sizes_inv).
Defined.

Example InterfaceDataHolder_init_two_sizes :
  InterfaceDataHolder_init remove_dups
    (Some [cand_large_relaxed; cand_small_strained])
  = (Ok tt, mkHolder [(INTERFACE_TERMINATION,
                       [cand_small_strained; cand_large_relaxed])]
                     [INTERFACE_TERMINATION]).
Proof. reflexivity. Qed.

(** C3 (as stated) fails.  A freshly constructed holder need not keep its
    lists in (strain, size) order: built from a 20-site candidate of strain
    0.1 and a 10-site candidate of strain 0.5, it stores the more strained
    one first. *)
Lemma constructed_holder_not_strain_major :
  ¬ (∀ list_set entries self',
       InterfaceDataHolder_init list_set entries = (Ok tt, self') →
       ∀ t l, dict_get (data self') t = Some l →
         deduplicated l ∧ StronglySorted strain_then_size l).
Proof.
  intros Hclaim.
  destruct (Hclaim _ _ _ InterfaceDataHolder_init_two_sizes
              INTERFACE_TERMINATION
              [cand_small_strained; cand_large_relaxed] eq_refl)
    as [_ Hsorted].
  apply StronglySorted_inv in Hsorted as [_ Hhead].
  apply Forall_cons in Hhead as [Hbad _].
  by apply small_strained_not_before_large_relaxed.
Qed.

Lemma py_getitem_valid {A} (l : list A) (i : Z) :
  - Z.of_nat (length l) ≤ i < Z.of_nat (length l) →
  ∃ x, l !! Z.to_nat (i `mod` Z.of_nat (length l)) = Some x
       ∧ py_getitem l i = Ok x.
Proof.
  intros Hi. unfold py_getitem.
  set (n := Z.of_nat (length l)) in *.
  set (j := if i <? 0 then i + n else i).
  assert (0 ≤ j < n ∧ i `mod` n = j) as [Hj ->].
  { subst j. destruct (Z.ltb_spec i 0).
    - split; [lia|]. rewrite <- (Z_mod_plus_full i 1 n).
      rewrite Z.mul_1_l. apply Z.mod_small. lia.
    - split; [lia|]. apply Z.mod_small. lia. }
  destruct (Z.ltb_spec j 0); [lia|].
  destruct (Z.leb_spec n j); [lia|]. simpl.
  destruct (lookup_lt_is_Some_2 l (Z.to_nat j)) as [x Hx]; [subst n; lia|].
  rewrite Hx. by exists x.
Qed.

(** C4.  At every valid position [i] of the terminations list (Python
    positions: [-len <= i < len], negative ones counting from the end),
    retrieving the interfaces by the index [i] gives the same result, for
    any selection, as retrieving them by the termination pair stored at
    that position. *)
Theorem retrieval_by_index_equals_by_key self i sel :
  - Z.of_nat (length (terminations self)) ≤ i
    < Z.of_nat (length (terminations self)) →
  ∃ t,
    terminations self
      !! Z.to_nat (i `mod` Z.of_nat (length (terminations self))) = Some t
    ∧ get_interfaces_for_termination (ByIndex i) sel self
      = get_interfaces_for_termination (ByKey t) sel self
    ∧ get_interfaces_for_termination_or_its_index (ByIndex i) self
      = get_interfaces_for_termination_or_its_index (ByKey t) self.
Proof.
  intros Hi.
  destruct (py_getitem_valid (terminations self) i Hi) as (t & Hpos & Hget).
  exists t. split; [done|].
  unfold get_interfaces_for_termination,
    get_interfaces_for_termination_or_its_index, get_termination,
    self_terminations, self_data, bind, ret, lift; simpl.
  by rewrite Hget.
Qed.

Lemma retrieval_by_index_equals_by_key_witness :
  get_interfaces_for_termination (ByIndex (-1)) SelNone holder_two_sizes
  = get_interfaces_for_termination (ByKey INTERFACE_TERMINATION) SelNone
      holder_two_sizes.
Proof.
  destruct (retrieval_by_index_equals_by_key holder_two_sizes (-1) SelNone)
    as (t & Hpos & Heq & _).
  - simpl. lia.
  - vm_compute in Hpos. injection Hpos as Ht. subst t. exact Heq.
Defined.

(** C5.  Retrieval with a termination index outside the terminations list,
    or with a termination pair that is not a key of the holder, raises
    IndexError, respectively KeyError, and the holder is as it was. *)
Theorem failed_retrieval_raises_and_keeps_holder self :
  (∀ i sel,
     i < - Z.of_nat (length (terminations self))
     ∨ Z.of_nat (length (terminations self)) ≤ i →
     get_interfaces_for_termination_or_its_index (ByIndex i) self
     = (Raise IndexError, self)
     ∧ get_interfaces_for_termination (ByIndex i) sel self
       = (Raise IndexError, self))
  ∧ (∀ t sel,
       t ∉ dict_keys (data self) →
       get_interfaces_for_termination_or_its_index (ByKey t) self
       = (Raise KeyError, self)
       ∧ get_interfaces_for_termination (ByKey t) sel self
         = (Raise KeyError, self)).
Proof.
  split.
  - intros i sel Hi.
    unfold get_interfaces_for_termination,
      get_interfaces_for_termination_or_its_index, get_termination,
      self_terminations, self_data, bind, ret, lift; simpl.
    by rewrite (py_getitem_out_of_range _ _ Hi).
  - intros t sel Ht. apply dict_get_None in Ht.
    unfold get_interfaces_for_termination,
      get_interfaces_for_termination_or_its_index, get_termination,
      self_terminations, self_data, bind, ret, lift, dict_getitem; simpl.
    by rewrite Ht.
Qed.

Lemma failed_retrieval_raises_and_keeps_holder_witness :
  get_interfaces_for_termination (ByIndex 1) SelNone holder_two_sizes
  = (Raise IndexError, holder_two_sizes)
  ∧ get_interfaces_for_termination (ByIndex (-2)) SelNone holder_two_sizes
    = (Raise IndexError, holder_two_sizes)
  ∧ get_interfaces_for_termination
      (ByKey ("Cu_termination"%string, "Si_termination"%string)) SelNone
      holder_two_sizes
    = (Raise KeyError, holder_two_sizes).
Proof.
  destruct (failed_retrieval_raises_and_keeps_holder holder_two_sizes)
    as [Hindex Hkey].
  split; [|split].
  - apply (Hindex 1 SelNone). right. simpl. lia.
  - apply (Hindex (-2) SelNone). left. simpl. lia.
  - apply (Hkey _ SelNone). unfold dict_keys. simpl.
    intros Hin. apply list_elem_of_singleton in Hin. discriminate Hin.
Defined.

Lemma dict_values_by_keys {K V} `{EqDecision K} (d : PyDict K V) :
  NoDup (dict_keys d) → omap (dict_get d) (dict_keys d) = dict_values d.
Proof.
  unfold dict_keys, dict_values.
  induction d as [|[k v] d IH]; intros Hnd; [done|].
  change (NoDup (k :: d.*1)) in Hnd.
  change (omap (dict_get ((k, v) :: d)) (k :: d.*1) = v :: d.*2).
  apply NoDup_cons in Hnd as [Hk Hnd].
  cbn [omap list_omap dict_get]. rewrite decide_True by done. f_equal.
  rewrite <- IH by done. apply list_omap_ext.
  apply Forall2_same_length_lookup_2; [done|].
  intros i k1 k2 Hk1 Hk2. rewrite Hk1 in Hk2. injection Hk2 as Heq.
  subst k2. apply decide_False. intros ->. apply Hk.
  by eapply list_elem_of_lookup_2.
Qed.

(** C9.  On a holder with at least one termination group,
    [get_all_interfaces] returns the concatenation of all groups' candidate
    lists, in dict order; on a holder with none (such as one constructed
    from an empty entry list) it raises (TypeError, from the reduction
    without an initial value) instead of returning an empty list.  The
    holder is unchanged either way.  On a well-formed holder the groups are
    those of the terminations list, in its order. *)
Theorem get_all_interfaces_concat_or_error self :
  (data self ≠ [] →
     get_all_interfaces self = (Ok (concat (dict_values (data self))), self))
  ∧ (data self = [] →
       get_all_interfaces self = (Raise TypeError, self))
  ∧ (holder_inv self →
       (terminations self = [] ↔ data self = [])
       ∧ dict_values (data self)
         = omap (dict_get (data self)) (terminations self)).
Proof.
  unfold get_all_interfaces, self_data, bind, lift.
  split; [|split].
  - intros Hdata. rewrite py_reduce_app; [done|].
    unfold dict_values. by destruct (data self).
  - by intros ->.
  - intros [Hkeys Hnd]. split.
    + rewrite <- Hkeys. unfold dict_keys. by destruct (data self).
    + rewrite <- Hkeys. symmetry. apply dict_values_by_keys. by rewrite Hkeys.
Qed.

Lemma get_all_interfaces_concat_or_error_witness :
  (∃ self, InterfaceDataHolder_init remove_dups (Some []) = (Ok tt, self)
           ∧ terminations self = []
           ∧ get_all_interfaces self = (Raise TypeError, self))
  ∧ get_all_interfaces holder_two_sizes
    = (Ok [cand_large_relaxed; cand_small_strained], holder_two_sizes).
Proof.
  split.
  - exists (mkHolder [] []). split; [reflexivity|]. split; [reflexivity|].
    apply (get_all_interfaces_concat_or_error (mkHolder [] [])).
    reflexivity.
  - apply (get_all_interfaces_concat_or_error holder_two_sizes).
    discriminate.
Defined.

(* ===================================================================== *)
(** * create_defect: the dispatch on the defect type *)
(* ===================================================================== *)

Section DefectDispatchFacts.
Context {PointDefectTypeEnum : Type} `{EqDecision PointDefectTypeEnum}.
Variables VACANCY SUBSTITUTION INTERSTITIAL : PointDefectTypeEnum.
Variable PointDefectBuilderParameters : Type.
Variables VacancyBuilder SubstitutionBuilder InterstitialBuilder
  : option PointDefectBuilderParameters → @Builder PointDefectTypeEnum.

Local Abbreviation factory :=
  (DEFECT_BUILDER_FACTORY VACANCY SUBSTITUTION INTERSTITIAL
     PointDefectBuilderParameters
     VacancyBuilder SubstitutionBuilder InterstitialBuilder).

Lemma DEFECT_BUILDER_FACTORY_keys builder_parameters k :
  is_Some (dict_get (factory builder_parameters) k)
  ↔ k ∈ [VACANCY; SUBSTITUTION; INTERSTITIAL].
Proof.
  unfold DEFECT_BUILDER_FACTORY. rewrite !dict_get_set. simpl.
  rewrite !elem_of_cons, elem_of_nil.
  destruct (decide (k = INTERSTITIAL)); [split; eauto 6|].
  destruct (decide (k = SUBSTITUTION)); [split; eauto 6|].
  destruct (decide (k = VACANCY)); [split; eauto 6|].
  split; [by intros [? ?]|]. intros [?|[?|[?|[]]]]; done.
Qed.

(** The branch taken for a listed defect type: the builder found under the
    key does the work (builder objects are true unless their class says
    otherwise). *)
Lemma create_defect_listed configuration builder_parameters builder :
  dict_get (factory builder_parameters) (defect_type configuration)
  = Some builder →
  builder_truth builder = true →
  create_defect VACANCY SUBSTITUTION INTERSTITIAL
    PointDefectBuilderParameters
    VacancyBuilder SubstitutionBuilder InterstitialBuilder
    configuration builder_parameters
  = get_material builder configuration.
Proof.
  intros Hfound Htruth. unfold create_defect, dict_getitem.
  by rewrite Hfound, Htruth.
Qed.

(** C6 (what the code does for an unlisted defect type).  The subscript on
    the factory dict raises KeyError before the [if builder else
    configuration.crystal] fallback is reached: nothing is returned. *)
Theorem create_defect_unlisted_type_raises configuration builder_parameters :
  defect_type configuration ∉ [VACANCY; SUBSTITUTION; INTERSTITIAL] →
  create_defect VACANCY SUBSTITUTION INTERSTITIAL
    PointDefectBuilderParameters
    VacancyBuilder SubstitutionBuilder InterstitialBuilder
    configuration builder_parameters
  = Raise KeyError.
Proof.
  intros Hunlisted. unfold create_defect, dict_getitem.
  destruct (dict_get (factory builder_parameters) (defect_type configuration))
    as [builder|] eqn:Hget; [|done].
  exfalso. apply Hunlisted.
  apply (DEFECT_BUILDER_FACTORY_keys builder_parameters). by rewrite Hget.
Qed.
End DefectDispatchFacts.

Lemma create_defect_unlisted_type_raises_witness :
  sample_create_defect (mkConfiguration section SampleUnlisted)
  = Raise KeyError
  ∧ sample_create_defect (mkConfiguration section SampleUnlisted)
    ≠ Ok section.
Proof.
  assert (Hraise : sample_create_defect (mkConfiguration section SampleUnlisted)
                   = Raise KeyError).
  { apply (create_defect_unlisted_type_raises SampleVacancy SampleSubstitution
             SampleInterstitial unit).
    simpl. intros Hin.
    apply elem_of_cons in Hin as [Heq|Hin]; [discriminate Heq|].
    apply elem_of_cons in Hin as [Heq|Hin]; [discriminate Heq|].
    apply elem_of_cons in Hin as [Heq|Hin]; [discriminate Heq|].
    by apply elem_of_nil in Hin. }
  split; [exact Hraise|]. rewrite Hraise. discriminate.
Defined.

Example create_defect_listed_sample :
  sample_create_defect (mkConfiguration section SampleVacancy)
  = Ok (mkMaterial "vacancy" (basis section)).
Proof. reflexivity. Qed.

(* ===================================================================== *)
(** * SlabGenerator.get_slab_with_termination *)
(* ===================================================================== *)

(** C8.  [get_slab_with_termination] returns the Material built, with the
    xy supercell applied, from the first generated slab structure whose
    termination label is the argument; it returns a Material whenever some
    generated slab has that label, and [None] (no exception) when none
    has. *)
Theorem get_slab_with_termination_first_match
    {Structure Matrix : Type}
    (label_termination : Structure → string)
    (from_pymatgen : Structure → Material)
    (create_supercell : Material → Matrix → Material)
    (self : SlabGenerator Structure Matrix) (t : string) :
  (∀ before slab after,
     _slab_structures self = before ++ slab :: after →
     label_termination slab = t →
     (∀ s, s ∈ before → label_termination s ≠ t) →
     get_slab_with_termination label_termination from_pymatgen
       create_supercell self t
     = Some (create_supercell (from_pymatgen slab) (xy_supercell_matrix self)))
  ∧ ((∃ s, s ∈ _slab_structures self ∧ label_termination s = t) →
       is_Some (get_slab_with_termination label_termination from_pymatgen
                  create_supercell self t))
  ∧ ((∀ s, s ∈ _slab_structures self → label_termination s ≠ t) →
       get_slab_with_termination label_termination from_pymatgen
         create_supercell self t = None).
Proof.
  unfold get_slab_with_termination.
  generalize (xy_supercell_matrix self) as xy.
  generalize (_slab_structures self) as slabs. clear self.
  intros slabs xy. split; [|split].
  - intros before slab after -> Hlabel Hbefore.
    induction before as [|s before IH]; simpl.
    + by rewrite decide_True.
    + rewrite decide_False by (apply Hbefore; left).
      apply IH. intros s' Hs'. apply Hbefore. by right.
  - intros (s & Hs & Hlabel).
    induction slabs as [|s0 slabs IH]; simpl.
    + by apply elem_of_nil in Hs.
    + destruct (decide (label_termination s0 = t)); [by eexists|].
      apply IH. apply elem_of_cons in Hs as [->|Hs]; done.
  - intros Hnone. induction slabs as [|s0 slabs IH]; simpl; [done|].
    rewrite decide_False by (apply Hnone; left).
    apply IH. intros s Hs. apply Hnone. by right.
Qed.

Lemma get_slab_with_termination_first_match_witness :
  sample_get_slab "Si_P4/mmm_1"
  = Some (mkMaterial "Si_P4/mmm_1" (mkBasis [mkItem 0%nat "Si"%string] [] []))
  ∧ sample_get_slab "Si_P4/mmm_3" = None.
Proof.
  unfold sample_get_slab.
  destruct (get_slab_with_termination_first_match fst
              (λ s : string * nat,
                 mkMaterial (fst s) (mkBasis [mkItem (snd s) "Si"%string] [] []))
              (λ m (_ : unit), m) sample_slab_generator "Si_P4/mmm_1")
    as [Hfirst _].
  destruct (get_slab_with_termination_first_match fst
              (λ s : string * nat,
                 mkMaterial (fst s) (mkBasis [mkItem (snd s) "Si"%string] [] []))
              (λ m (_ : unit), m) sample_slab_generator "Si_P4/mmm_3")
    as (_ & _ & Hnone).
  split.
  - apply (Hfirst [] ("Si_P4/mmm_1"%string, 0%nat)
             [("Si_P4/mmm_2"%string, 1%nat); ("Si_P4/mmm_1"%string, 2%nat)]).
    + reflexivity.
    + reflexivity.
    + intros s Hs. by apply elem_of_nil in Hs.
  - apply Hnone. intros s Hs. simpl in Hs.
    apply elem_of_cons in Hs as [->|Hs]; [discriminate|].
    apply elem_of_cons in Hs as [->|Hs]; [discriminate|].
    apply elem_of_cons in Hs as [->|Hs]; [discriminate|].
    by apply elem_of_nil in Hs.
Defined.

(* ===================================================================== *)
(** * filter_by_label: what is filtered and what is not *)
(* ===================================================================== *)

Lemma elem_of_enumerate {A} (l : list A) (idx : nat) (x : A) :
  (idx, x) ∈ enumerate l ↔ l !! idx = Some x.
Proof.
  unfold enumerate. rewrite elem_of_lookup_imap. split.
  - by intros (i & y & [= -> ->] & Hy).
  - intros Hx. by exists idx, x.
Qed.

Lemma matching_indices_spec (labels_ : list (WithId LabelValue))
    (label : LabelValue) (idx : nat) :
  idx ∈ (filter (λ p, item_value p.2 = label) (enumerate labels_)).*1
  ↔ label_at_is labels_ label idx.
Proof.
  unfold label_at_is. rewrite list_elem_of_fmap. split.
  - intros ([i l] & -> & [Hl Hin%elem_of_enumerate]%list_elem_of_filter).
    simpl in *. rewrite Hin. by apply bool_decide_pack.
  - destruct (labels_ !! idx) as [l|] eqn:Hl; [|done].
    intros Hmatch%bool_decide_unpack. exists (idx, l). split; [done|].
    apply list_elem_of_filter. split; [done|]. by apply elem_of_enumerate.
Qed.

Lemma filter_by_position_spec {A} (labels_ : list (WithId LabelValue))
    (label : LabelValue) (l : list A) :
  (filter (λ p, p.1 ∈ (filter (λ q, item_value q.2 = label)
                              (enumerate labels_)).*1)
          (enumerate l)).*2
  = (filter (λ p, label_at_is labels_ label p.1) (enumerate l)).*2.
Proof.
  f_equal. apply list_filter_iff. intros [idx x]. simpl.
  apply matching_indices_spec.
Qed.

Lemma filter_positions_below {A} (P : nat * A → Prop)
    `{∀ p, Decision (P p)} (n : nat) (l : list A) (k : nat) :
  (∀ p, P p → (p.1 < n)%nat) →
  (length (filter P (imap (λ idx x, (k + idx, x)%nat) l)) ≤ n - k)%nat.
Proof.
  intros Hbelow. revert k. induction l as [|x l IH]; intros k.
  - simpl. lia.
  - rewrite imap_cons.
    assert (Hshift : imap ((λ idx x, (k + idx, x)%nat) ∘ S) l
                     = imap (λ idx x, (S k + idx, x)%nat) l).
    { apply imap_ext. intros i y _. simpl. f_equal. lia. }
    rewrite Hshift. specialize (IH (S k)). rewrite filter_cons.
    destruct (decide (P ((k + 0)%nat, x))) as [HP|].
    + apply Hbelow in HP. cbn [fst length] in *.
      eapply Nat.le_trans; [apply le_n_S, IH|lia].
    + lia.
Qed.

Lemma filtered_length_le_labels {A} (labels_ : list (WithId LabelValue))
    (label : LabelValue) (l : list A) :
  (length (filter (λ p, label_at_is labels_ label p.1) (enumerate l)).*2
   ≤ length labels_)%nat.
Proof.
  rewrite length_fmap.
  pose proof (filter_positions_below
                (λ p : nat * A, label_at_is labels_ label p.1)
                (length labels_) l 0) as Hle.
  unfold enumerate. simpl in Hle. rewrite Nat.sub_0_r in Hle. apply Hle.
  intros [idx x]. simpl. unfold label_at_is.
  destruct (labels_ !! idx) eqn:Hl; [|done]. intros _.
  by eapply lookup_lt_Some.
Qed.

(** C10 (as amended).  [filter_by_label] returns the object it was given and
    changes only that object, in place: its coordinates and elements become
    the entries at the positions whose label has the given value, and its
    labels list (and name) stay as they were.  The labels list is never
    shorter than the filtered lists; whenever it was at least as long as
    the elements (coordinates) list and the filter removes at least one
    entry of it, the labels list is longer than the filtered list. *)
Theorem filter_by_label_in_place (σ : Store) (material : Ref) (m : Material)
    (label : LabelValue) :
  σ !! material = Some m →
  ∃ m',
    filter_by_label material label σ = (material, <[material := m']> σ)
    ∧ name m' = name m
    ∧ labels (basis m') = labels (basis m)
    ∧ elements (basis m')
      = (filter (λ p, label_at_is (labels (basis m)) label p.1)
                (enumerate (elements (basis m)))).*2
    ∧ coordinates (basis m')
      = (filter (λ p, label_at_is (labels (basis m)) label p.1)
                (enumerate (coordinates (basis m)))).*2
    ∧ (length (elements (basis m')) ≤ length (labels (basis m')))%nat
    ∧ (length (coordinates (basis m')) ≤ length (labels (basis m')))%nat
    ∧ ((length (elements (basis m)) ≤ length (labels (basis m)))%nat →
       (length (elements (basis m')) < length (elements (basis m)))%nat →
       (length (elements (basis m')) < length (labels (basis m')))%nat)
    ∧ ((length (coordinates (basis m)) ≤ length (labels (basis m)))%nat →
       (length (coordinates (basis m')) < length (coordinates (basis m)))%nat →
       (length (coordinates (basis m')) < length (labels (basis m')))%nat).
Proof.
  intros Hm. exists (filter_by_label_body m label).
  split.
  { unfold filter_by_label. f_equal. apply map_eq. intros r.
    destruct (decide (r = material)) as [->|Hne].
    - by rewrite lookup_alter_eq, lookup_insert_eq, Hm.
    - by rewrite lookup_alter_ne, lookup_insert_ne. }
  unfold filter_by_label_body. cbn [name basis labels elements coordinates].
  rewrite !filter_by_position_spec.
  split; [done|]. split; [done|]. split; [done|]. split; [done|].
  split; [apply filtered_length_le_labels|].
  split; [apply filtered_length_le_labels|].
  split; lia.
Qed.

Lemma filter_by_label_in_place_witness :
  ∃ m',
    filter_by_label 0%nat (LabelInt 1) {[ 0%nat := tagged_pair ]}
    = (0%nat, <[0%nat := m']> {[ 0%nat := tagged_pair ]})
    ∧ labels (basis m') = labels (basis tagged_pair)
    ∧ elements (basis m') = [mkItem 0 "Si"%string]
    ∧ (length (elements (basis m')) < length (labels (basis m')))%nat.
Proof.
  destruct (filter_by_label_in_place {[ 0%nat := tagged_pair ]} 0%nat
              tagged_pair (LabelInt 1))
    as (m' & Hrun & _ & Hlabels & Helements & _ & _ & _ & Hlonger & _).
  - apply lookup_singleton_eq.
  - exists m'. split; [exact Hrun|]. split; [exact Hlabels|].
    split; [exact Helements|].
    apply Hlonger.
    + simpl. lia.
    + rewrite Helements. simpl. lia.
Defined.

Example filter_by_label_unlabelled :
  filter_by_label 0%nat (LabelInt 1) {[ 0%nat := unlabelled_atom ]}
  = (0%nat, {[ 0%nat := mkMaterial "Ni" (mkBasis [] [] []) ]}).
Proof. reflexivity. Qed.

(** C10 (as stated) fails.  On a material whose basis has an atom and no
    labels, the filter removes the atom, and the labels list (empty) is not
    longer than the filtered elements list (empty). *)
Lemma filter_by_label_labels_not_always_longer :
  ¬ (∀ (σ : Store) material label m m',
       σ !! material = Some m →
       (filter_by_label material label σ).2 !! material = Some m' →
       (length (elements (basis m')) < length (elements (basis m)))%nat →
       (length (elements (basis m')) < length (labels (basis m')))%nat).
Proof.
  intros Hclaim.
  specialize (Hclaim {[ 0%nat := unlabelled_atom ]} 0%nat (LabelInt 1)
                unlabelled_atom (mkMaterial "Ni" (mkBasis [] [] []))).
  rewrite filter_by_label_unlabelled in Hclaim. simpl in Hclaim.
  rewrite !lookup_singleton_eq in Hclaim.
  specialize (Hclaim eq_refl eq_refl). lia.
Qed.

(* ===================================================================== *)
(** * Further properties of the InterfaceDataHolder *)
(* ===================================================================== *)

(** ** A stable sort has one possible outcome *)

Lemma filter_comm {A} (P Q : A → Prop)
    `{∀ x, Decision (P x)} `{∀ x, Decision (Q x)} (l : list A) :
  filter P (filter Q l) = filter Q (filter P l).
Proof.
  rewrite !list_filter_filter. apply list_filter_iff. intros x. tauto.
Qed.

Lemma StronglySorted_filter {A} (R R' : A → A → Prop) (P : A → Prop)
    `{∀ x, Decision (P x)} (l : list A) :
  (∀ x y, P x → P y → R x y → R' x y) →
  StronglySorted R l → StronglySorted R' (filter P l).
Proof.
  intros HR. induction 1 as [|x l Hl IH Hx]; [constructor|].
  rewrite filter_cons. destruct (decide (P x)) as [Px|]; [|done].
  constructor; [done|]. apply Forall_forall.
  intros y [Py Hy]%list_elem_of_filter.
  apply HR; [done|done|]. by eapply Forall_forall in Hx.
Qed.

Section StableSortUnique.
Context {A K : Type} (leb : K → K → bool) (key : A → K).
Hypothesis leb_total : ∀ a b, leb a b = true ∨ leb b a = true.

Local Abbreviation in_class :=
  (λ (k : K) (x : A), leb (key x) k = true ∧ leb k (key x) = true).

Lemma leb_refl a : leb a a = true.
Proof. by destruct (leb_total a a). Qed.

Lemma head_key_le x l y :
  Forall (key_le leb key x) l → y ∈ x :: l → leb (key x) (key y) = true.
Proof.
  intros Hx [->|Hy]%elem_of_cons; [apply leb_refl|].
  by eapply Forall_forall in Hx.
Qed.

(** Two lists in key order whose key classes agree, class by class and in
    order, are the same list. *)
Lemma stable_sorted_unique l1 l2 :
  StronglySorted (key_le leb key) l1 →
  StronglySorted (key_le leb key) l2 →
  (∀ k, filter (in_class k) l1 = filter (in_class k) l2) →
  l1 = l2.
Proof.
  revert l2. induction l1 as [|x l1 IH]; intros l2 Hs1 Hs2 Hcls.
  - destruct l2 as [|y l2]; [done|].
    specialize (Hcls (key y)). rewrite filter_nil, filter_cons_True in Hcls;
      [done|split; apply leb_refl].
  - destruct l2 as [|y l2].
    { specialize (Hcls (key x)).
      rewrite filter_nil, filter_cons_True in Hcls;
        [done|split; apply leb_refl]. }
    apply StronglySorted_inv in Hs1 as [Hs1 Hx].
    apply StronglySorted_inv in Hs2 as [Hs2 Hy].
    pose proof (Hcls (key x)) as Hkx. pose proof (Hcls (key y)) as Hky.
    rewrite (filter_cons_True _ x) in Hkx by (split; apply leb_refl).
    rewrite (filter_cons_True _ y) in Hky by (split; apply leb_refl).
    assert (Hxy : leb (key x) (key y) = true).
    { apply (head_key_le x l1); [done|].
      eapply (list_elem_of_filter (in_class (key y))). rewrite Hky. left. }
    assert (Hyx : leb (key y) (key x) = true).
    { apply (head_key_le y l2); [done|].
      eapply (list_elem_of_filter (in_class (key x))). rewrite <- Hkx. left. }
    rewrite (filter_cons_True _ y) in Hkx by done.
    injection Hkx as Heq _. subst y. f_equal.
    apply IH; [done|done|]. intros k. specialize (Hcls k).
    rewrite !filter_cons in Hcls.
    destruct (decide (in_class k x)); [by injection Hcls|done].
Qed.
End StableSortUnique.

(** A list already in (size, strain) order is a fixed point of the two
    sorts. *)
Lemma two_pass_sort_fixed l :
  StronglySorted size_then_strain l →
  py_sorted Nat.leb num_sites (py_sorted Qle_bool strain_key l) = l.
Proof.
  intros Hl.
  apply (stable_sorted_unique Nat.leb num_sites Nat_leb_total).
  - apply py_sorted_sorted; [apply Nat_leb_total|apply Nat_leb_trans].
  - eapply StronglySorted_mono; [|exact Hl].
    intros x y [Hxy _]. by apply Nat.leb_le.
  - intros n.
    rewrite (py_sorted_stable Nat.leb num_sites Nat_leb_trans).
    apply (stable_sorted_unique Qle_bool strain_key Qle_bool_total).
    + eapply StronglySorted_sublist; [apply sublist_filter|].
      apply py_sorted_sorted; [apply Qle_bool_total|apply Qle_bool_trans].
    + eapply StronglySorted_filter; [|exact Hl].
      intros x y [Hx1 Hx2] [Hy1 Hy2] [_ Htie].
      apply Qle_bool_iff, Htie.
      apply Nat.leb_le in Hx1, Hx2, Hy1, Hy2. lia.
    + intros c.
      rewrite 2!(filter_comm _ (λ x, Nat.leb (num_sites x) n = true
                                     ∧ Nat.leb n (num_sites x) = true)).
      by rewrite (py_sorted_stable Qle_bool strain_key Qle_bool_trans).
Qed.

(** A list without duplicates is a fixed point of the duplicate filter. *)
Lemma dedupe_fold_id l acc :
  deduplicated (acc ++ l) → fold_left dedupe_step l acc = acc ++ l.
Proof.
  revert acc. induction l as [|y l IH]; intros acc Hdd; simpl.
  - by rewrite app_nil_r.
  - assert (Hstep : dedupe_step acc y = acc ++ [y]).
    { unfold dedupe_step.
      replace (existsb _ acc) with false; [done|]. symmetry.
      apply existsb_false_Forall, Forall_forall. intros x Hx.
      apply (StronglySorted_app_1_elem_of _ _ _ x y Hdd); [done|left]. }
    rewrite Hstep, IH; rewrite <- app_assoc; done.
Qed.

Lemma filter_duplicates_id l : deduplicated l → filter_duplicates l = l.
Proof.
  unfold filter_duplicates. destruct l as [|x l]; [done|]. simpl.
  apply (dedupe_fold_id l [x]).
Qed.

Lemma filter_duplicates_fixed l :
  let kept := filter_duplicates (py_sorted Nat.leb num_sites l) in
  filter_duplicates (py_sorted Nat.leb num_sites kept) = kept.
Proof.
  intros kept.
  assert (Hsorted : py_sorted Nat.leb num_sites kept = kept).
  { apply py_sorted_id. eapply StronglySorted_sublist;
      [apply filter_duplicates_sublist|].
    apply py_sorted_sorted; [apply Nat_leb_total|apply Nat_leb_trans]. }
  rewrite Hsorted. apply filter_duplicates_id, filter_duplicates_deduplicated.
Qed.

(** Two dicts with the same keys in the same order, each once, and the same
    lookups are the same dict. *)
Lemma dict_ext {K V} `{EqDecision K} (d1 d2 : PyDict K V) :
  dict_keys d1 = dict_keys d2 →
  NoDup (dict_keys d1) →
  (∀ k, dict_get d1 k = dict_get d2 k) →
  d1 = d2.
Proof.
  unfold dict_keys.
  revert d2. induction d1 as [|[k v] d1 IH]; intros [|[k' v'] d2];
    try done.
  intros Hkeys Hnd Hget.
  change (k :: d1.*1 = k' :: d2.*1) in Hkeys.
  change (NoDup (k :: d1.*1)) in Hnd.
  injection Hkeys as <- Hkeys. apply NoDup_cons in Hnd as [Hk Hnd].
  pose proof (Hget k) as Hv. simpl in Hv. rewrite !decide_True in Hv by done.
  injection Hv as <-. f_equal. apply IH; [done|done|].
  intros k0. specialize (Hget k0). simpl in Hget.
  destruct (decide (k0 = k)) as [->|]; [|done].
  assert (Hnone : dict_get d1 k = None) by (by apply dict_get_None).
  rewrite Hnone. symmetry. apply dict_get_None.
  unfold dict_keys. by rewrite <- Hkeys.
Qed.

(** ** Registering terminations and storing groups *)

Lemma add_termination_terminations self t self' :
  add_termination t self = (Ok tt, self') →
  terminations self'
  = if bool_decide (t ∈ terminations self) then terminations self
    else terminations self ++ [t].
Proof.
  unfold add_termination.
  rewrite (bind_ok _ _ self (terminations self) self) by done.
  case_bool_decide; intros [= <-]; done.
Qed.

Lemma add_interfaces_for_termination_full self t interfaces :
  holder_inv self →
  ∃ self',
    add_interfaces_for_termination t interfaces self = (Ok tt, self')
    ∧ holder_inv self'
    ∧ terminations self'
      = (if bool_decide (t ∈ terminations self) then terminations self
         else terminations self ++ [t])
    ∧ ∀ k, dict_get (data self') k
           = if decide (k = t)
             then Some (default [] (dict_get (data self) t) ++ interfaces)
             else dict_get (data self) k.
Proof.
  intros Hinv.
  destruct (add_interfaces_for_termination_run self t interfaces Hinv)
    as (self' & Hrun & Hinv' & Hget).
  exists self'. split; [done|]. split; [done|]. split; [|done].
  destruct (add_termination_run self t Hinv) as (self1 & Hrun1 & _ & _ & Hget1).
  rewrite <- (add_termination_terminations _ _ _ Hrun1).
  unfold add_interfaces_for_termination in Hrun.
  rewrite (bind_ok _ _ _ _ _ Hrun1) in Hrun.
  unfold bind at 1 in Hrun.
  rewrite get_interfaces_for_termination_by_key in Hrun.
  destruct (dict_get (data self1) t); [|done].
  by injection Hrun as <-.
Qed.

(** X1.  [set_interfaces_for_termination] followed by retrieval by key gives
    back the stored list; retrieval of every other key is as before; the
    terminations list is never touched, so a pair that was not registered
    gets a group (last in the dict) without being listed. *)
Theorem set_then_get_interfaces self t interfaces :
  ∃ self',
    set_interfaces_for_termination t interfaces self = (Ok tt, self')
    ∧ terminations self' = terminations self
    ∧ get_interfaces_for_termination (ByKey t) SelNone self'
      = (Ok interfaces, self')
    ∧ (∀ t', t' ≠ t →
         (get_interfaces_for_termination (ByKey t') SelNone self').1
         = (get_interfaces_for_termination (ByKey t') SelNone self).1)
    ∧ dict_keys (data self')
      = if bool_decide (t ∈ dict_keys (data self)) then dict_keys (data self)
        else dict_keys (data self) ++ [t].
Proof.
  eexists. split; [reflexivity|]. simpl. split; [done|]. split; [|split].
  - rewrite get_interfaces_for_termination_by_key. simpl.
    by rewrite dict_get_set, decide_True.
  - intros t' Hne. rewrite !get_interfaces_for_termination_by_key. simpl.
    by rewrite dict_get_set, decide_False.
  - case_bool_decide.
    + by apply dict_keys_set_present.
    + by apply dict_keys_set_absent.
Qed.

(** X2.  On a well-formed holder [add_termination] keeps the holder
    well-formed; a pair already listed changes nothing; a new pair is listed
    last with an empty group and all other groups are untouched; adding the
    same pair again changes nothing. *)
Theorem add_termination_registers_once self t :
  holder_inv self →
  ∃ self',
    add_termination t self = (Ok tt, self')
    ∧ holder_inv self'
    ∧ (t ∈ terminations self → self' = self)
    ∧ (t ∉ terminations self →
         terminations self' = terminations self ++ [t]
         ∧ dict_get (data self') t = Some []
         ∧ ∀ k, k ≠ t → dict_get (data self') k = dict_get (data self) k)
    ∧ add_termination t self' = (Ok tt, self').
Proof.
  intros Hinv.
  destruct (add_termination_run self t Hinv)
    as (self' & Hrun & Hinv' & Hin & Hget).
  exists self'. split; [done|]. split; [done|].
  pose proof (add_termination_terminations _ _ _ Hrun) as Hts.
  split; [|split].
  - intros Ht. unfold add_termination in Hrun.
    rewrite (bind_ok _ _ self (terminations self) self) in Hrun by done.
    rewrite bool_decide_eq_true_2 in Hrun by done. by injection Hrun.
  - intros Ht. rewrite bool_decide_eq_false_2 in Hts by done.
    split; [done|]. split.
    + rewrite Hget, decide_True by done.
      destruct Hinv as [Hkeys _]. rewrite <- Hkeys in Ht.
      apply dict_get_None in Ht. by rewrite Ht.
    + intros k Hne. by rewrite Hget, decide_False.
  - unfold add_termination.
    rewrite (bind_ok _ _ self' (terminations self') self') by done.
    by rewrite bool_decide_eq_true_2.
Qed.

Lemma add_termination_registers_once_witness :
  ∃ self',
    add_termination ("Cu_termination"%string, "Si_termination"%string)
      holder_two_sizes = (Ok tt, self')
    ∧ terminations self'
      = [INTERFACE_TERMINATION;
         ("Cu_termination"%string, "Si_termination"%string)]
    ∧ dict_get (data self')
        ("Cu_termination"%string, "Si_termination"%string) = Some [].
Proof.
  destruct (add_termination_registers_once holder_two_sizes
              ("Cu_termination"%string, "Si_termination"%string)
              holder_two_sizes_inv)
    as (self' & Hrun & _ & _ & Hnew & _).
  exists self'. split; [exact Hrun|].
  destruct Hnew as (Hts & Hget & _).
  - simpl. intros Hin. apply list_elem_of_singleton in Hin. discriminate Hin.
  - split; [exact Hts|exact Hget].
Defined.

(** X3.  On a well-formed holder [add_interfaces_for_termination] registers
    the pair if needed and appends the given interfaces after those already
    stored for it; other groups are untouched; adding [l1] and then [l2] to
    a pair leaves the holder exactly as adding [l1 ++ l2] does. *)
Theorem add_interfaces_for_termination_appends self t l1 l2 :
  holder_inv self →
  ∃ self1 self2,
    add_interfaces_for_termination t l1 self = (Ok tt, self1)
    ∧ holder_inv self1
    ∧ dict_get (data self1) t
      = Some (default [] (dict_get (data self) t) ++ l1)
    ∧ (∀ k, k ≠ t → dict_get (data self1) k = dict_get (data self) k)
    ∧ add_interfaces_for_termination t l2 self1 = (Ok tt, self2)
    ∧ add_interfaces_for_termination t (l1 ++ l2) self = (Ok tt, self2).
Proof.
  intros Hinv.
  destruct (add_interfaces_for_termination_full self t l1 Hinv)
    as (self1 & Hrun1 & Hinv1 & Hts1 & Hget1).
  destruct (add_interfaces_for_termination_full self1 t l2 Hinv1)
    as (self2 & Hrun2 & Hinv2 & Hts2 & Hget2).
  destruct (add_interfaces_for_termination_full self t (l1 ++ l2) Hinv)
    as (self12 & Hrun12 & Hinv12 & Hts12 & Hget12).
  exists self1, self2. split; [done|]. split; [done|].
  split; [by rewrite Hget1, decide_True|].
  split; [by intros k Hne; rewrite Hget1, decide_False|].
  split; [done|]. rewrite Hrun12. do 2 f_equal.
  assert (Hts : terminations self12 = terminations self2).
  { rewrite Hts12, Hts2, Hts1. case_bool_decide as Ht.
    - by rewrite bool_decide_eq_true_2.
    - rewrite bool_decide_eq_true_2; [done|].
      apply elem_of_app. right. left. }
  destruct Hinv12 as [Hk12 Hnd12], Hinv2 as [Hk2 Hnd2].
  destruct self12 as [d12 ts12], self2 as [d2 ts2].
  cbn [data terminations] in *. rewrite Hts. f_equal.
  apply dict_ext; [by rewrite Hk12, Hk2|by rewrite Hk12|].
  intros k. rewrite Hget12, Hget2, !Hget1.
  destruct (decide (k = t)) as [->|]; [|done].
  rewrite decide_True by done. simpl. by rewrite app_assoc.
Qed.

Lemma add_interfaces_for_termination_appends_witness :
  ∃ self1 self2,
    add_interfaces_for_termination INTERFACE_TERMINATION [cand_1_00000]
      holder_two_sizes = (Ok tt, self1)
    ∧ dict_get (data self1) INTERFACE_TERMINATION
      = Some [cand_large_relaxed; cand_small_strained; cand_1_00000]
    ∧ add_interfaces_for_termination INTERFACE_TERMINATION [cand_1_00001]
        self1 = (Ok tt, self2)
    ∧ add_interfaces_for_termination INTERFACE_TERMINATION
        [cand_1_00000; cand_1_00001] holder_two_sizes = (Ok tt, self2).
Proof.
  destruct (add_interfaces_for_termination_appends holder_two_sizes
              INTERFACE_TERMINATION [cand_1_00000] [cand_1_00001]
              holder_two_sizes_inv)
    as (self1 & self2 & Hrun1 & _ & Hget & _ & Hrun2 & Hrun12).
  exists self1, self2.
  split; [exact Hrun1|]. split; [exact Hget|].
  split; [exact Hrun2|exact Hrun12].
Defined.

(** ** Entries are partitioned by termination *)

Lemma filter_ext_in {A} (P Q : A → Prop)
    `{∀ x, Decision (P x)} `{∀ x, Decision (Q x)} (l : list A) :
  (∀ x, x ∈ l → (P x ↔ Q x)) → filter P l = filter Q l.
Proof.
  induction l as [|x l IH]; intros Hext; [done|].
  rewrite !filter_cons, IH by (intros; apply Hext; by right).
  destruct (decide (P x)) as [HP|HP], (decide (Q x)) as [HQ|HQ]; try done;
    exfalso; apply (Hext x) in HP || apply (Hext x) in HQ; try done; left.
Qed.

Lemma filter_all {A} (P : A → Prop) `{∀ x, Decision (P x)} (l : list A) :
  (∀ x, x ∈ l → P x) → filter P l = l.
Proof.
  induction l as [|x l IH]; intros Hall; [done|].
  rewrite filter_cons_True by (apply Hall; left).
  f_equal. apply IH. intros y Hy. apply Hall. by right.
Qed.

Lemma omap_total {A B} (f : A → option B) (g : A → B) (l : list A) :
  (∀ x, x ∈ l → f x = Some (g x)) → omap f l = g <$> l.
Proof.
  induction l as [|x l IH]; intros Hf; [done|].
  cbn [omap list_omap]. rewrite (Hf x) by left. rewrite fmap_cons.
  f_equal. apply IH. intros y Hy. apply Hf. by right.
Qed.

Lemma concat_groups_perm {A K} `{EqDecision K} (key : A → K)
    (ks : list K) (l : list A) :
  NoDup ks →
  concat ((λ k, filter (λ x, key x = k) l) <$> ks)
  ≡ₚ filter (λ x, key x ∈ ks) l.
Proof.
  induction ks as [|k ks IH]; intros Hnd.
  - simpl. symmetry. apply Permutation_nil_r.
    induction l as [|x l IHl]; [done|].
    rewrite filter_cons_False; [done|]. apply not_elem_of_nil.
  - apply NoDup_cons in Hnd as [Hk Hnd].
    rewrite fmap_cons. cbn [concat]. rewrite IH by done.
    clear IH. induction l as [|x l IHl]; [done|].
    rewrite !filter_cons.
    destruct (decide (key x = k)) as [Hxk|Hxk].
    + rewrite decide_False by (by rewrite Hxk).
      rewrite decide_True by (rewrite Hxk; left).
      simpl. by rewrite IHl.
    + destruct (decide (key x ∈ ks)) as [Hin|Hin].
      * rewrite decide_True by (by right).
        rewrite <- Permutation_middle. by rewrite IHl.
      * rewrite decide_False; [done|].
        by intros [?|?]%elem_of_cons.
Qed.

Lemma add_interfaces_loop_content (group : TerminationType → list Interface)
    ts self :
  holder_inv self →
  NoDup ts →
  ∃ self',
    for_each ts (λ t, add_interfaces_for_termination t (group t)) self
    = (Ok tt, self')
    ∧ holder_inv self'
    ∧ terminations self'
      = terminations self ++ filter (λ t, t ∉ terminations self) ts
    ∧ ∀ k, dict_get (data self') k
           = if bool_decide (k ∈ ts)
             then Some (default [] (dict_get (data self) k) ++ group k)
             else dict_get (data self) k.
Proof.
  revert self. induction ts as [|t ts IH]; intros self Hinv Hnd; simpl.
  - exists self. split; [done|]. split; [done|].
    split; [by rewrite filter_nil, app_nil_r|done].
  - apply NoDup_cons in Hnd as [Ht Hnd].
    destruct (add_interfaces_for_termination_full self t (group t) Hinv)
      as (self1 & Hrun1 & Hinv1 & Hts1 & Hget1).
    destruct (IH self1 Hinv1 Hnd) as (self' & Hrun & Hinv' & Hts & Hget).
    exists self'. rewrite (bind_ok _ _ _ _ _ Hrun1).
    split; [done|]. split; [done|]. split.
    + rewrite Hts, Hts1, filter_cons. case_bool_decide as Hin.
      * by rewrite decide_False by tauto.
      * rewrite decide_True by done. rewrite <- app_assoc. simpl.
        do 2 f_equal. apply filter_ext_in. intros x Hx.
        rewrite elem_of_app, list_elem_of_singleton.
        split; [tauto|]. intros Hx' [?| ->]; done.
    + intros k. rewrite Hget, !Hget1.
      destruct (decide (k = t)) as [->|Hne].
      * rewrite bool_decide_eq_false_2 by done.
        by rewrite bool_decide_eq_true_2 by left.
      * destruct (decide (k ∈ ts)) as [Hk|Hk].
        -- rewrite !bool_decide_eq_true_2; [done|by right|done].
        -- rewrite !bool_decide_eq_false_2; [done| |done].
           by intros [?|?]%elem_of_cons.
Qed.

Lemma set_semantics_remove_dups {A} `{EqDecision A} :
  set_semantics (remove_dups (A := A)).
Proof.
  intros xs. split; [apply NoDup_remove_dups|].
  intros x. apply elem_of_remove_dups.
Qed.

Lemma set_semantics_nil {A} (list_set : list A → list A) :
  set_semantics list_set → list_set [] = [].
Proof.
  intros Hset. destruct (Hset []) as [_ Hin].
  destruct (list_set []) as [|x l]; [done|].
  exfalso. apply (not_elem_of_nil x), Hin. left.
Qed.

(** X4.  With sorting and de-duplication switched off, [add_data_entries]
    on a well-formed holder partitions the entries by termination: the
    group of every termination that occurs among the entries becomes its
    old content followed by the entries of that termination in their input
    order, every other group is untouched, terminations already listed keep
    their positions and the new ones are exactly those of the entries. *)
Theorem add_data_entries_partitions_by_termination
    (list_set : list TerminationType → list TerminationType) entries self :
  set_semantics list_set →
  holder_inv self →
  ∃ self',
    add_data_entries list_set entries false false self = (Ok tt, self')
    ∧ holder_inv self'
    ∧ terminations self `prefix_of` terminations self'
    ∧ (∀ t, t ∈ terminations self'
            ↔ t ∈ terminations self ∨ t ∈ termination <$> entries)
    ∧ ∀ t, dict_get (data self') t
           = if bool_decide (t ∈ termination <$> entries)
             then Some (default [] (dict_get (data self) t)
                        ++ filter (λ entry, termination entry = t) entries)
             else dict_get (data self) t.
Proof.
  intros Hset Hinv. unfold add_data_entries.
  destruct (Hset (termination <$> entries)) as [Hnd Hmem].
  destruct (add_interfaces_loop_content
              (λ t, filter (λ entry, termination entry = t) entries)
              (list_set (termination <$> entries)) self Hinv Hnd)
    as (self' & Hrun & Hinv' & Hts & Hget).
  exists self'. rewrite (bind_ok _ _ _ _ _ Hrun).
  split; [done|]. split; [done|]. split; [|split].
  - rewrite Hts. by apply prefix_app_r.
  - intros t. rewrite Hts, elem_of_app, list_elem_of_filter, Hmem.
    destruct (decide (t ∈ terminations self)); tauto.
  - intros t. rewrite Hget.
    destruct (decide (t ∈ termination <$> entries)) as [Ht|Ht].
    + rewrite !bool_decide_eq_true_2; [done|done|by apply Hmem].
    + rewrite !bool_decide_eq_false_2; [done|done|by rewrite Hmem].
Qed.

Lemma add_data_entries_partitions_by_termination_witness :
  ∃ self',
    add_data_entries remove_dups [cand_1_00001; cand_1_00000] false false
      holder_two_sizes = (Ok tt, self')
    ∧ dict_get (data self') INTERFACE_TERMINATION
      = Some [cand_large_relaxed; cand_small_strained;
              cand_1_00001; cand_1_00000].
Proof.
  destruct (add_data_entries_partitions_by_termination remove_dups
              [cand_1_00001; cand_1_00000] holder_two_sizes
              set_semantics_remove_dups holder_two_sizes_inv)
    as (self' & Hrun & _ & _ & _ & Hget).
  exists self'. split; [exact Hrun|]. exact (Hget INTERFACE_TERMINATION).
Defined.

Lemma get_all_interfaces_data_nonempty self :
  data self ≠ [] →
  get_all_interfaces self = (Ok (concat (dict_values (data self))), self).
Proof.
  intros Hdata. unfold get_all_interfaces, self_data, bind, lift.
  rewrite py_reduce_app; [done|].
  unfold dict_values. by destruct (data self).
Qed.

(** X5.  A holder created empty and filled by [add_data_entries] with
    sorting and de-duplication switched off returns from
    [get_all_interfaces] a rearrangement of the entries (nothing lost,
    nothing added): the entries grouped by termination, each group in input
    order, the groups in the order of the terminations list. *)
Theorem get_all_interfaces_unsorted_is_entries
    (list_set : list TerminationType → list TerminationType) entries :
  set_semantics list_set →
  entries ≠ [] →
  ∃ self all,
    InterfaceDataHolder_init list_set None = (Ok tt, mkHolder [] [])
    ∧ add_data_entries list_set entries false false (mkHolder [] [])
      = (Ok tt, self)
    ∧ get_all_interfaces self = (Ok all, self)
    ∧ all ≡ₚ entries
    ∧ all = concat ((λ t, filter (λ entry, termination entry = t) entries)
                    <$> terminations self).
Proof.
  intros Hset Hentries.
  destruct (Hset (termination <$> entries)) as [Hnd Hmem].
  destruct (add_interfaces_loop_content
              (λ t, filter (λ entry, termination entry = t) entries)
              (list_set (termination <$> entries)) (mkHolder [] [])
              holder_inv_empty Hnd)
    as (self & Hloop & Hinv & Hlisted & Hstored).
  assert (Hrun : add_data_entries list_set entries false false
                   (mkHolder [] []) = (Ok tt, self)).
  { unfold add_data_entries. by rewrite (bind_ok _ _ _ _ _ Hloop). }
  assert (Hts : ∀ t, t ∈ terminations self
                     ↔ t ∈ [] ∨ t ∈ termination <$> entries).
  { intros t. rewrite Hlisted. simpl.
    rewrite list_elem_of_filter, Hmem, elem_of_nil. tauto. }
  assert (Hget : ∀ t, dict_get (data self) t
            = if bool_decide (t ∈ termination <$> entries)
              then Some (filter (λ entry, termination entry = t) entries)
              else None).
  { intros t. rewrite Hstored. simpl.
    destruct (decide (t ∈ termination <$> entries)) as [Ht|Ht].
    - rewrite !bool_decide_eq_true_2; [done|done|by apply Hmem].
    - rewrite !bool_decide_eq_false_2; [done|done|by rewrite Hmem]. }
  assert (Hvalues : dict_values (data self)
            = (λ t, filter (λ entry, termination entry = t) entries)
              <$> terminations self).
  { destruct Hinv as [Hkeys Hndk].
    rewrite <- (dict_values_by_keys (data self)) by (by rewrite Hkeys).
    rewrite Hkeys. apply omap_total. intros t Ht. rewrite Hget.
    apply Hts in Ht as [Ht|Ht]; [by apply elem_of_nil in Ht|].
    by rewrite bool_decide_eq_true_2. }
  exists self, (concat (dict_values (data self))).
  split.
  { unfold InterfaceDataHolder_init, add_data_entries. simpl.
    by rewrite (set_semantics_nil _ Hset). }
  split; [done|]. split; [|split].
  - apply get_all_interfaces_data_nonempty.
    destruct entries as [|e entries]; [done|].
    assert (He : termination e ∈ terminations self).
    { apply Hts. right. rewrite fmap_cons. left. }
    destruct Hinv as [Hkeys _]. rewrite <- Hkeys in He.
    intros Hd. rewrite Hd in He. by apply elem_of_nil in He.
  - rewrite Hvalues.
    rewrite concat_groups_perm by (by destruct Hinv).
    rewrite filter_all; [done|].
    intros e He. apply Hts. right. by apply list_elem_of_fmap_2.
  - by rewrite Hvalues.
Qed.

Lemma get_all_interfaces_unsorted_is_entries_witness :
  ∃ self all,
    add_data_entries remove_dups [cand_large_relaxed; cand_small_strained]
      false false (mkHolder [] []) = (Ok tt, self)
    ∧ get_all_interfaces self = (Ok all, self)
    ∧ all ≡ₚ [cand_large_relaxed; cand_small_strained].
Proof.
  destruct (get_all_interfaces_unsorted_is_entries remove_dups
              [cand_large_relaxed; cand_small_strained]
              set_semantics_remove_dups)
    as (self & all & _ & Hrun & Hall & Hperm & _).
  - discriminate.
  - exists self, all. split; [exact Hrun|]. split; [exact Hall|exact Hperm].
Defined.

(** X6.  A holder constructed from entries lists exactly the terminations
    of the entries; each of its groups is non-empty and made of entries of
    that termination, none of them used more often than it was given;
    every entry is either stored in the group of its termination or is a
    duplicate (same site count, strain within tolerance) of a candidate
    stored there. *)
Theorem constructed_holder_accounts_for_entries
    (list_set : list TerminationType → list TerminationType) entries :
  set_semantics list_set →
  ∃ self,
    InterfaceDataHolder_init list_set (Some entries) = (Ok tt, self)
    ∧ (∀ t, t ∈ terminations self ↔ t ∈ termination <$> entries)
    ∧ (∀ t kept, dict_get (data self) t = Some kept →
         kept ≠ []
         ∧ kept ⊆+ filter (λ entry, termination entry = t) entries)
    ∧ (∀ entry, entry ∈ entries →
         ∃ kept,
           dict_get (data self) (termination entry) = Some kept
           ∧ (entry ∈ kept
              ∨ ∃ x, x ∈ kept ∧ are_interfaces_duplicate entry x = true)).
Proof.
  intros Hset. unfold InterfaceDataHolder_init, add_data_entries. simpl.
  destruct (Hset (termination <$> entries)) as [Hnd Hmem].
  destruct (add_interfaces_loop_content
              (λ t, filter (λ entry, termination entry = t) entries)
              (list_set (termination <$> entries)) (mkHolder [] [])
              holder_inv_empty Hnd)
    as (self1 & Hrun1 & Hinv1 & Hts1 & Hget1).
  rewrite (bind_ok _ _ _ _ _ Hrun1).
  destruct (sort_interfaces_for_all_terminations_run self1 Hinv1)
    as (self2 & Hrun2 & Hinv2 & Hts2 & Hget2).
  rewrite (bind_ok _ _ _ _ _ Hrun2).
  destruct (remove_duplicate_interfaces_run self2 Hinv2)
    as (self3 & Hrun3 & Hinv3 & Hts3 & Hget3).
  exists self3. split; [done|].
  set (group t := filter (λ entry, termination entry = t) entries) in *.
  set (stored t := filter_duplicates
                     (py_sorted Nat.leb num_sites
                        (py_sorted Nat.leb num_sites
                           (py_sorted Qle_bool strain_key (group t))))).
  assert (Hstored : ∀ t, dict_get (data self3) t
            = if bool_decide (t ∈ termination <$> entries)
              then Some (stored t) else None).
  { intros t. rewrite Hget3, Hget2, Hget1. simpl.
    destruct (decide (t ∈ termination <$> entries)) as [Ht|Ht].
    - rewrite !bool_decide_eq_true_2; [done|done|by apply Hmem].
    - rewrite !bool_decide_eq_false_2; [done|done|by rewrite Hmem]. }
  assert (Hsorted : ∀ t,
            py_sorted Nat.leb num_sites
              (py_sorted Nat.leb num_sites
                 (py_sorted Qle_bool strain_key (group t)))
            ≡ₚ group t).
  { intros t. by rewrite !py_sorted_perm. }
  split; [|split].
  - intros t. rewrite Hts3, Hts2, Hts1. simpl.
    rewrite list_elem_of_filter, Hmem. split; [tauto|].
    intros Ht. split; [apply not_elem_of_nil|done].
  - intros t kept. rewrite Hstored. case_bool_decide as Ht; [|done].
    intros [= <-]. split.
    + apply list_elem_of_fmap in Ht as (e & -> & He).
      assert (Hin : e ∈ group (termination e)).
      { apply list_elem_of_filter. by split. }
      rewrite <- Hsorted in Hin.
      intros Hnil. pose proof (filter_duplicates_head
        (py_sorted Nat.leb num_sites
           (py_sorted Nat.leb num_sites
              (py_sorted Qle_bool strain_key (group (termination e))))))
        as Hhead.
      fold (stored (termination e)) in Hhead. rewrite Hnil in Hhead.
      destruct (py_sorted Nat.leb num_sites _) as [|x l]; [|done].
      by apply elem_of_nil in Hin.
    + apply submseteq_sublist_l. eexists. split; [|apply Hsorted].
      apply filter_duplicates_sublist.
  - intros e He. exists (stored (termination e)). split.
    + rewrite Hstored. rewrite bool_decide_eq_true_2; [done|].
      by apply list_elem_of_fmap_2.
    + apply filter_duplicates_cover. rewrite Hsorted.
      apply list_elem_of_filter. by split.
Qed.

Lemma constructed_holder_accounts_for_entries_witness :
  ∃ self,
    InterfaceDataHolder_init remove_dups
      (Some [cand_1_00000; cand_1_00001; cand_1_00002]) = (Ok tt, self)
    ∧ ∃ kept,
        dict_get (data self) INTERFACE_TERMINATION = Some kept
        ∧ (cand_1_00001 ∈ kept
           ∨ ∃ x, x ∈ kept
                  ∧ are_interfaces_duplicate cand_1_00001 x = true).
Proof.
  destruct (constructed_holder_accounts_for_entries remove_dups
              [cand_1_00000; cand_1_00001; cand_1_00002]
              set_semantics_remove_dups)
    as (self & Hrun & _ & _ & Hcover).
  exists self. split; [exact Hrun|].
  apply (Hcover cand_1_00001). right. left.
Defined.

(** ** Sorting and de-duplicating again changes nothing *)

Lemma holder_ext self self' :
  holder_inv self → holder_inv self' →
  terminations self' = terminations self →
  (∀ k, dict_get (data self') k = dict_get (data self) k) →
  self' = self.
Proof.
  intros [Hkeys Hnd] [Hkeys' Hnd'] Hts Hget.
  destruct self as [d ts], self' as [d' ts']. cbn [data terminations] in *.
  rewrite Hts in Hkeys' |- *. f_equal.
  apply dict_ext; [by rewrite Hkeys, Hkeys'|by rewrite Hkeys'|done].
Qed.

Lemma sort_interfaces_fixed self :
  holder_inv self →
  (∀ t l, dict_get (data self) t = Some l →
     StronglySorted size_then_strain l) →
  sort_interfaces_for_all_terminations_by_strain_and_size self = (Ok tt, self).
Proof.
  intros Hinv Hsorted.
  destruct (sort_interfaces_for_all_terminations_run self Hinv)
    as (self' & Hrun & Hinv' & Hts & Hget).
  rewrite Hrun. do 2 f_equal. apply holder_ext; [done|done|done|].
  intros k. rewrite Hget.
  destruct (dict_get (data self) k) as [l|] eqn:Hl; [|done]. simpl.
  f_equal. apply two_pass_sort_fixed. by eapply Hsorted.
Qed.

Lemma remove_duplicate_interfaces_fixed self :
  holder_inv self →
  (∀ t l, dict_get (data self) t = Some l →
     deduplicated l ∧ StronglySorted size_then_strain l) →
  remove_duplicate_interfaces self = (Ok tt, self).
Proof.
  intros Hinv Hgroups.
  destruct (remove_duplicate_interfaces_run self Hinv)
    as (self' & Hrun & Hinv' & Hts & Hget).
  rewrite Hrun. do 2 f_equal. apply holder_ext; [done|done|done|].
  intros k. rewrite Hget.
  destruct (dict_get (data self) k) as [l|] eqn:Hl; [|done]. simpl.
  destruct (Hgroups k l Hl) as [Hdd Hsorted].
  rewrite (size_then_strain_sorted_by_size _ Hsorted).
  f_equal. by apply filter_duplicates_id.
Qed.

Lemma add_data_entries_default_run
    (list_set : list TerminationType → list TerminationType) entries self :
  holder_inv self →
  ∃ self',
    add_data_entries list_set entries true true self = (Ok tt, self')
    ∧ holder_inv self'
    ∧ ∀ t l, dict_get (data self') t = Some l →
        deduplicated l ∧ StronglySorted size_then_strain l.
Proof.
  intros Hinv. unfold add_data_entries.
  destruct (add_interfaces_loop_run
              (λ t, filter (λ entry, termination entry = t) entries)
              (list_set (termination <$> entries)) self Hinv)
    as (self1 & Hrun1 & Hinv1).
  rewrite (bind_ok _ _ _ _ _ Hrun1).
  destruct (sort_interfaces_for_all_terminations_run self1 Hinv1)
    as (self2 & Hrun2 & Hinv2 & _ & Hget2).
  rewrite (bind_ok _ _ _ _ _ Hrun2).
  destruct (remove_duplicate_interfaces_run self2 Hinv2)
    as (self3 & Hrun3 & Hinv3 & _ & Hget3).
  exists self3. split; [done|]. split; [done|].
  intros t l. rewrite Hget3, Hget2.
  destruct (dict_get (data self1) t) as [l1|]; simpl; [|done].
  intros [= <-].
  pose proof (two_pass_sort_order l1) as Hsorted.
  rewrite (size_then_strain_sorted_by_size _ Hsorted).
  split; [apply filter_duplicates_deduplicated|].
  eapply StronglySorted_sublist; [apply filter_duplicates_sublist|done].
Qed.

(** X7.  On a well-formed holder
    [sort_interfaces_for_all_terminations_by_strain_and_size] succeeds,
    keeps the terminations list, replaces every group by a rearrangement of
    itself in (site count, strain) order, and is idempotent: sorting the
    sorted holder returns the very same holder. *)
Theorem sort_interfaces_rearranges_and_is_idempotent self :
  holder_inv self →
  ∃ self',
    sort_interfaces_for_all_terminations_by_strain_and_size self
    = (Ok tt, self')
    ∧ holder_inv self'
    ∧ terminations self' = terminations self
    ∧ (∀ t l, dict_get (data self) t = Some l →
         ∃ l', dict_get (data self') t = Some l'
               ∧ l' ≡ₚ l
               ∧ StronglySorted size_then_strain l')
    ∧ sort_interfaces_for_all_terminations_by_strain_and_size self'
      = (Ok tt, self').
Proof.
  intros Hinv.
  destruct (sort_interfaces_for_all_terminations_run self Hinv)
    as (self' & Hrun & Hinv' & Hts & Hget).
  exists self'. split; [done|]. split; [done|]. split; [done|]. split.
  - intros t l Hl. eexists. split; [by rewrite Hget, Hl|].
    split; [by rewrite !py_sorted_perm|apply two_pass_sort_order].
  - apply sort_interfaces_fixed; [done|].
    intros t l'. rewrite Hget.
    destruct (dict_get (data self) t) as [l|]; [|done].
    intros [= <-]. apply two_pass_sort_order.
Qed.

Lemma sort_interfaces_rearranges_and_is_idempotent_witness :
  ∃ self',
    sort_interfaces_for_all_terminations_by_strain_and_size holder_two_sizes
    = (Ok tt, self')
    ∧ terminations self' = [INTERFACE_TERMINATION]
    ∧ sort_interfaces_for_all_terminations_by_strain_and_size self'
      = (Ok tt, self').
Proof.
  destruct (sort_interfaces_rearranges_and_is_idempotent holder_two_sizes
              holder_two_sizes_inv)
    as (self' & Hrun & _ & Hts & _ & Hagain).
  exists self'. split; [exact Hrun|]. split; [exact Hts|exact Hagain].
Defined.

(** X8.  On a well-formed holder [remove_duplicate_interfaces] never adds a
    candidate and never empties a group: every group becomes a sub-multiset
    of itself that is non-empty whenever the group was; and it is
    idempotent: running it on its own result returns the very same
    holder. *)
Theorem remove_duplicate_interfaces_shrinks_and_is_idempotent self :
  holder_inv self →
  ∃ self',
    remove_duplicate_interfaces self = (Ok tt, self')
    ∧ holder_inv self'
    ∧ (∀ t l, dict_get (data self) t = Some l →
         ∃ kept, dict_get (data self') t = Some kept
                 ∧ kept ⊆+ l
                 ∧ (l ≠ [] → kept ≠ []))
    ∧ remove_duplicate_interfaces self' = (Ok tt, self').
Proof.
  intros Hinv.
  destruct (remove_duplicate_interfaces_run self Hinv)
    as (self' & Hrun & Hinv' & Hts & Hget).
  exists self'. split; [done|]. split; [done|]. split.
  - intros t l Hl. eexists. split; [by rewrite Hget, Hl|]. split.
    + apply submseteq_sublist_l. eexists.
      split; [apply filter_duplicates_sublist|apply py_sorted_perm].
    + intros Hne Hnil.
      pose proof (filter_duplicates_head (py_sorted Nat.leb num_sites l))
        as Hhead.
      rewrite Hnil in Hhead.
      pose proof (py_sorted_perm Nat.leb num_sites l) as Hperm.
      destruct (py_sorted Nat.leb num_sites l); [|done].
      apply Permutation_nil_l in Hperm. by subst l.
  - destruct (remove_duplicate_interfaces_run self' Hinv')
      as (self'' & Hrun' & Hinv'' & Hts' & Hget').
    rewrite Hrun'. do 2 f_equal. apply holder_ext; [done|done|done|].
    intros k. rewrite Hget', Hget.
    destruct (dict_get (data self) k) as [l|]; [|done]. simpl.
    f_equal. apply filter_duplicates_fixed.
Qed.

Lemma remove_duplicate_interfaces_shrinks_and_is_idempotent_witness :
  ∃ self',
    remove_duplicate_interfaces holder_near_duplicates = (Ok tt, self')
    ∧ remove_duplicate_interfaces self' = (Ok tt, self').
Proof.
  destruct (remove_duplicate_interfaces_shrinks_and_is_idempotent
              holder_near_duplicates holder_near_duplicates_inv)
    as (self' & Hrun & _ & _ & Hagain).
  exists self'. split; [exact Hrun|exact Hagain].
Defined.

(** X9.  What [add_data_entries] with its default flags (and so the
    constructor) leaves behind is a fixed point of both passes: sorting it
    again, or removing duplicates again, returns the very same holder. *)
Theorem add_data_entries_result_is_stable
    (list_set : list TerminationType → list TerminationType) :
  (∀ entries,
     ∃ self',
       InterfaceDataHolder_init list_set entries = (Ok tt, self')
       ∧ sort_interfaces_for_all_terminations_by_strain_and_size self'
         = (Ok tt, self')
       ∧ remove_duplicate_interfaces self' = (Ok tt, self'))
  ∧ (∀ entries self,
       holder_inv self →
       ∃ self',
         add_data_entries list_set entries true true self = (Ok tt, self')
         ∧ sort_interfaces_for_all_terminations_by_strain_and_size self'
           = (Ok tt, self')
         ∧ remove_duplicate_interfaces self' = (Ok tt, self')).
Proof.
  assert (Hadd : ∀ entries self,
       holder_inv self →
       ∃ self',
         add_data_entries list_set entries true true self = (Ok tt, self')
         ∧ sort_interfaces_for_all_terminations_by_strain_and_size self'
           = (Ok tt, self')
         ∧ remove_duplicate_interfaces self' = (Ok tt, self')).
  { intros entries self Hinv.
    destruct (add_data_entries_default_run list_set entries self Hinv)
      as (self' & Hrun & Hinv' & Hgroups).
    exists self'. split; [done|]. split.
    - apply sort_interfaces_fixed; [done|].
      intros t l Hl. by destruct (Hgroups t l Hl).
    - by apply remove_duplicate_interfaces_fixed. }
  split; [|exact Hadd].
  intros entries. unfold InterfaceDataHolder_init.
  apply Hadd, holder_inv_empty.
Qed.

Lemma add_data_entries_result_is_stable_witness :
  ∃ self',
    add_data_entries remove_dups [cand_1_00001; cand_1_00000] true true
      holder_two_sizes = (Ok tt, self')
    ∧ remove_duplicate_interfaces self' = (Ok tt, self').
Proof.
  destruct (proj2 (add_data_entries_result_is_stable remove_dups)
              [cand_1_00001; cand_1_00000] holder_two_sizes
              holder_two_sizes_inv)
    as (self' & Hrun & _ & Hagain).
  exists self'. split; [exact Hrun|exact Hagain].
Defined.

(** ** The two single-key sorted views and retrieval *)

(** X10.  [get_interfaces_for_termination_sorted_by_strain] returns a
    rearrangement of the group in non-decreasing mean absolute strain,
    candidates of equal strain in the order they are stored (the sort is
    stable), and leaves the holder as it is. *)
Theorem sorted_by_strain_is_stable_sort self t l :
  get_interfaces_for_termination t SelNone self = (Ok l, self) →
  ∃ l',
    get_interfaces_for_termination_sorted_by_strain t self = (Ok l', self)
    ∧ l' ≡ₚ l
    ∧ StronglySorted (λ x y, (strain_key x <= strain_key y)%Q) l'
    ∧ ∀ c, filter (same_strain c) l' = filter (same_strain c) l.
Proof.
  intros Hget. exists (py_sorted Qle_bool strain_key l).
  split; [|split; [|split]].
  - unfold get_interfaces_for_termination_sorted_by_strain.
    unfold bind at 1. by rewrite Hget.
  - apply py_sorted_perm.
  - eapply StronglySorted_mono;
      [|apply (py_sorted_sorted Qle_bool strain_key
                 Qle_bool_total Qle_bool_trans)].
    intros x y Hxy. by apply Qle_bool_iff.
  - intros c.
    etrans;
      [|etrans;
         [apply (py_sorted_stable Qle_bool strain_key Qle_bool_trans c l)|]];
      by apply list_filter_iff.
Qed.

Lemma sorted_by_strain_is_stable_sort_witness :
  ∃ l',
    get_interfaces_for_termination_sorted_by_strain
      (ByKey INTERFACE_TERMINATION) holder_two_sizes
    = (Ok l', holder_two_sizes)
    ∧ StronglySorted (λ x y, (strain_key x <= strain_key y)%Q) l'.
Proof.
  destruct (sorted_by_strain_is_stable_sort holder_two_sizes
              (ByKey INTERFACE_TERMINATION)
              [cand_large_relaxed; cand_small_strained] eq_refl)
    as (l' & Hrun & _ & Hsorted & _).
  exists l'. split; [exact Hrun|exact Hsorted].
Defined.

(** X11.  [get_interfaces_for_termination_sorted_by_size] returns a
    rearrangement of the group in non-decreasing site count, candidates of
    equal site count in the order they are stored, and leaves the holder as
    it is. *)
Theorem sorted_by_size_is_stable_sort self t l :
  get_interfaces_for_termination t SelNone self = (Ok l, self) →
  ∃ l',
    get_interfaces_for_termination_sorted_by_size t self = (Ok l', self)
    ∧ l' ≡ₚ l
    ∧ StronglySorted (λ x y, (num_sites x ≤ num_sites y)%nat) l'
    ∧ ∀ n, filter (same_size n) l' = filter (same_size n) l.
Proof.
  intros Hget. exists (py_sorted Nat.leb num_sites l).
  split; [|split; [|split]].
  - unfold get_interfaces_for_termination_sorted_by_size.
    unfold bind at 1. by rewrite Hget.
  - apply py_sorted_perm.
  - eapply StronglySorted_mono;
      [|apply (py_sorted_sorted Nat.leb num_sites
                 Nat_leb_total Nat_leb_trans)].
    intros x y Hxy. by apply Nat.leb_le.
  - intros n.
    etrans;
      [|etrans;
         [apply (py_sorted_stable Nat.leb num_sites Nat_leb_trans n l)|]];
      by apply list_filter_iff.
Qed.

Lemma sorted_by_size_is_stable_sort_witness :
  ∃ l',
    get_interfaces_for_termination_sorted_by_size
      (ByIndex 0) holder_near_duplicates
    = (Ok l', holder_near_duplicates)
    ∧ filter (same_size 8) l'
      = [cand_1_00000; cand_1_00001; cand_1_00002].
Proof.
  destruct (sorted_by_size_is_stable_sort holder_near_duplicates
              (ByIndex 0)
              [cand_1_00000; cand_1_00001; cand_1_00002] eq_refl)
    as (l' & Hrun & _ & _ & Hstable).
  exists l'. split; [exact Hrun|]. rewrite Hstable. reflexivity.
Defined.



(* ===================================================================== *)
(** * Further properties of filter_by_label *)
(* ===================================================================== *)

Lemma imap_shift {A} (k : nat) (l : list A) :
  imap ((λ idx x, (k + idx, x)%nat) ∘ S) l
  = imap (λ idx x, (S k + idx, x)%nat) l.
Proof. apply imap_ext. intros i y _. simpl. f_equal. lia. Qed.

Lemma snd_imap_pair {A} (f : nat → nat) (l : list A) :
  (imap (λ idx x, (f idx, x)) l).*2 = l.
Proof.
  revert f. induction l as [|x l IH]; intros f; [done|].
  rewrite imap_cons, fmap_cons. simpl. f_equal. apply (IH (f ∘ S)).
Qed.

Lemma filter_none {A} (P : A → Prop) `{∀ x, Decision (P x)} (l : list A) :
  (∀ x, x ∈ l → ¬ P x) → filter P l = [].
Proof.
  induction l as [|x l IH]; intros Hnone; [done|].
  rewrite filter_cons_False by (apply Hnone; left).
  apply IH. intros y Hy. apply Hnone. by right.
Qed.

(** Filtering two arrays by position keeps them parallel. *)
Lemma filter_positions_zip {A B} (P : nat → Prop) `{∀ i, Decision (P i)}
    (l1 : list A) (l2 : list B) (k : nat) :
  zip (filter (λ p, P p.1) (imap (λ idx x, (k + idx, x)%nat) l1)).*2
      (filter (λ p, P p.1) (imap (λ idx x, (k + idx, x)%nat) l2)).*2
  = (filter (λ p, P p.1)
            (imap (λ idx x, (k + idx, x)%nat) (zip l1 l2))).*2.
Proof.
  revert l2 k. induction l1 as [|x l1 IH]; intros l2 k; [done|].
  destruct l2 as [|y l2].
  { cbn [zip zip_with imap]. rewrite filter_nil.
    by destruct (filter _ _).*2. }
  cbn [zip zip_with]. rewrite !imap_cons, !imap_shift, !filter_cons.
  cbn [fst]. specialize (IH l2 (S k)). cbn [zip] in IH.
  destruct (decide (P (k + 0)%nat)); [|done].
  rewrite !fmap_cons. cbn [snd zip_with]. by rewrite IH.
Qed.

Lemma filter_positions_sublist {A} (P : nat * A → Prop)
    `{∀ p, Decision (P p)} (l : list A) (k : nat) :
  (filter P (imap (λ idx x, (k + idx, x)%nat) l)).*2 `sublist_of` l.
Proof.
  revert k. induction l as [|x l IH]; intros k; [done|].
  rewrite imap_cons, imap_shift, filter_cons.
  destruct (decide (P ((k + 0)%nat, x))).
  - rewrite fmap_cons. apply sublist_skip, IH.
  - apply sublist_cons, IH.
Qed.

Lemma filter_positions_length {A B} (P : nat → Prop) `{∀ i, Decision (P i)}
    (l1 : list A) (l2 : list B) (k : nat) :
  length l1 = length l2 →
  length (filter (λ p, P p.1) (imap (λ idx x, (k + idx, x)%nat) l1))
  = length (filter (λ p, P p.1) (imap (λ idx x, (k + idx, x)%nat) l2)).
Proof.
  revert l2 k. induction l1 as [|x l1 IH]; intros [|y l2] k Hlen;
    try done.
  rewrite !imap_cons, !imap_shift, !filter_cons. cbn [fst].
  injection Hlen as Hlen. specialize (IH l2 (S k) Hlen).
  destruct (decide (P (k + 0)%nat)); cbn [length]; by rewrite IH.
Qed.

Lemma enumerate_offset {A} (l : list A) :
  enumerate l = imap (λ idx x, (0 + idx, x)%nat) l.
Proof. reflexivity. Qed.

Lemma filter_by_label_lookup (σ : Store) (material : Ref) (m : Material)
    (label : LabelValue) :
  σ !! material = Some m →
  (filter_by_label material label σ).2 !! material
  = Some (mkMaterial (name m)
            (mkBasis
               (filter (λ p, label_at_is (labels (basis m)) label p.1)
                       (enumerate (elements (basis m)))).*2
               (filter (λ p, label_at_is (labels (basis m)) label p.1)
                       (enumerate (coordinates (basis m)))).*2
               (labels (basis m)))).
Proof.
  intros Hm. unfold filter_by_label. cbn [snd].
  rewrite lookup_alter_eq, Hm. simpl. unfold filter_by_label_body.
  by rewrite !filter_by_position_spec.
Qed.

(** X13.  [filter_by_label] keeps, in order, a sub-sequence of the elements
    and of the coordinates, chosen by the same positions: the k-th element
    kept still goes with the k-th coordinate kept, and arrays of equal
    length stay of equal length.  No other object of the store is
    changed. *)
Theorem filter_by_label_keeps_arrays_parallel (σ : Store) (material : Ref)
    (m : Material) (label : LabelValue) :
  σ !! material = Some m →
  ∃ m',
    (filter_by_label material label σ).2 !! material = Some m'
    ∧ elements (basis m') `sublist_of` elements (basis m)
    ∧ coordinates (basis m') `sublist_of` coordinates (basis m)
    ∧ zip (elements (basis m')) (coordinates (basis m'))
      = (filter (λ p, label_at_is (labels (basis m)) label p.1)
                (enumerate (zip (elements (basis m))
                                (coordinates (basis m))))).*2
    ∧ (length (elements (basis m)) = length (coordinates (basis m)) →
       length (elements (basis m')) = length (coordinates (basis m')))
    ∧ ∀ other, other ≠ material →
        (filter_by_label material label σ).2 !! other = σ !! other.
Proof.
  intros Hm. eexists. split; [by apply filter_by_label_lookup|].
  cbn [basis elements coordinates]. rewrite !enumerate_offset.
  split; [apply filter_positions_sublist|].
  split; [apply filter_positions_sublist|].
  split; [|split].
  - apply (@filter_positions_zip _ _
             (λ i, label_at_is (labels (basis m)) label i)
             (λ i, Is_true_dec (label_at_is (labels (basis m)) label i))).
  - intros Hlen. rewrite !length_fmap.
    by apply (@filter_positions_length _ _
                (λ i, label_at_is (labels (basis m)) label i)
                (λ i, Is_true_dec (label_at_is (labels (basis m)) label i))).
  - intros other Hne. unfold filter_by_label. cbn [snd].
    by rewrite lookup_alter_ne.
Qed.

Lemma filter_by_label_keeps_arrays_parallel_witness :
  ∃ m',
    (filter_by_label 0%nat (LabelInt 2) {[ 0%nat := tagged_pair ]}).2
      !! 0%nat = Some m'
    ∧ zip (elements (basis m')) (coordinates (basis m'))
      = [(mkItem 1 "Si"%string, mkItem 1 [half; half; half]%Q)].
Proof.
  destruct (filter_by_label_keeps_arrays_parallel
              {[ 0%nat := tagged_pair ]} 0%nat tagged_pair (LabelInt 2))
    as (m' & Hm' & _ & _ & Hzip & _).
  - apply lookup_singleton_eq.
  - exists m'. split; [exact Hm'|]. rewrite Hzip. reflexivity.
Defined.

(** X14.  Filtering by a label value that no label carries (in particular
    filtering a material without labels) removes every element and every
    coordinate, and keeps the labels. *)
Theorem filter_by_label_absent_label_empties (σ : Store) (material : Ref)
    (m : Material) (label : LabelValue) :
  σ !! material = Some m →
  (∀ l, l ∈ labels (basis m) → item_value l ≠ label) →
  (filter_by_label material label σ).2 !! material
  = Some (mkMaterial (name m) (mkBasis [] [] (labels (basis m)))).
Proof.
  intros Hm Hnone. rewrite (filter_by_label_lookup _ _ _ _ Hm).
  assert (Hoff : ∀ idx, ¬ label_at_is (labels (basis m)) label idx).
  { intros idx Hat. unfold label_at_is in Hat.
    destruct (labels (basis m) !! idx) as [l|] eqn:Hl; [|exact Hat].
    apply bool_decide_unpack in Hat. apply (Hnone l); [|done].
    by eapply list_elem_of_lookup_2. }
  rewrite !filter_none; [done|by intros [idx x] _..].
Qed.

Lemma filter_by_label_absent_label_empties_witness :
  (filter_by_label 0%nat (LabelInt 3) {[ 0%nat := tagged_pair ]}).2 !! 0%nat
  = Some (mkMaterial "Si"
            (mkBasis [] [] [mkItem 0 (LabelInt 1); mkItem 1 (LabelInt 2)])).
Proof.
  apply (filter_by_label_absent_label_empties {[ 0%nat := tagged_pair ]}
           0%nat tagged_pair (LabelInt 3)).
  - apply lookup_singleton_eq.
  - intros l Hl. simpl in Hl.
    apply elem_of_cons in Hl as [->|Hl]; [discriminate|].
    apply elem_of_cons in Hl as [->|Hl]; [discriminate|].
    by apply elem_of_nil in Hl.
Defined.

(** X15.  When every label carries the value and there is a label for every
    element and every coordinate, [filter_by_label] changes nothing: the
    store after the call is the store before it. *)
Theorem filter_by_label_all_match_is_identity (σ : Store) (material : Ref)
    (m : Material) (label : LabelValue) :
  σ !! material = Some m →
  (∀ l, l ∈ labels (basis m) → item_value l = label) →
  (length (elements (basis m)) ≤ length (labels (basis m)))%nat →
  (length (coordinates (basis m)) ≤ length (labels (basis m)))%nat →
  filter_by_label material label σ = (material, σ).
Proof.
  intros Hm Hall Hel Hco.
  assert (Hon : ∀ idx, (idx < length (labels (basis m)))%nat →
                       label_at_is (labels (basis m)) label idx).
  { intros idx Hidx. unfold label_at_is.
    destruct (lookup_lt_is_Some_2 _ _ Hidx) as [l Hl]. rewrite Hl.
    apply bool_decide_pack, Hall. by eapply list_elem_of_lookup_2. }
  unfold filter_by_label. f_equal. apply map_eq. intros r.
  destruct (decide (r = material)) as [->|Hne];
    [|by rewrite lookup_alter_ne].
  rewrite lookup_alter_eq, Hm. simpl. f_equal.
  unfold filter_by_label_body. rewrite !filter_by_position_spec.
  rewrite !filter_all.
  - unfold enumerate. rewrite !(snd_imap_pair (λ i, i)).
    by destruct m as [n [es cs ls]].
  - intros [idx x] Hx%elem_of_enumerate. apply Hon. simpl.
    apply lookup_lt_Some in Hx. lia.
  - intros [idx x] Hx%elem_of_enumerate. apply Hon. simpl.
    apply lookup_lt_Some in Hx. lia.
Qed.

Lemma filter_by_label_all_match_is_identity_witness :
  filter_by_label 0%nat (LabelInt 1)
    {[ 0%nat := mkMaterial "Si"
                  (mkBasis [mkItem 0 "Si"%string] [mkItem 0 [0; 0; 0]%Q]
                           [mkItem 0 (LabelInt 1)]) ]}
  = (0%nat,
     {[ 0%nat := mkMaterial "Si"
                   (mkBasis [mkItem 0 "Si"%string] [mkItem 0 [0; 0; 0]%Q]
                            [mkItem 0 (LabelInt 1)]) ]}).
Proof.
  apply (filter_by_label_all_match_is_identity _ 0%nat
           (mkMaterial "Si"
              (mkBasis [mkItem 0 "Si"%string] [mkItem 0 [0; 0; 0]%Q]
                       [mkItem 0 (LabelInt 1)])) (LabelInt 1)).
  - apply lookup_singleton_eq.
  - intros l Hl. simpl in Hl. by apply list_elem_of_singleton in Hl as ->.
  - simpl. lia.
  - simpl. lia.
Defined.

(* ===================================================================== *)
(** * Further properties of create_defect and of the slab generator *)
(* ===================================================================== *)

Section DefectDispatchByType.
Context {PointDefectTypeEnum : Type} `{EqDecision PointDefectTypeEnum}.
Variables VACANCY SUBSTITUTION INTERSTITIAL : PointDefectTypeEnum.
Variable PointDefectBuilderParameters : Type.
Variables VacancyBuilder SubstitutionBuilder InterstitialBuilder
  : option PointDefectBuilderParameters → @Builder PointDefectTypeEnum.

(** X16.  When the three members of the enum are different, [create_defect]
    hands the configuration to the builder of its own defect type, built
    from the given builder parameters: the result is that builder's
    [get_material(configuration)], or the unmodified
    [configuration.crystal] if that builder object is false. *)
Theorem create_defect_dispatches_by_type configuration builder_parameters :
  VACANCY ≠ SUBSTITUTION →
  VACANCY ≠ INTERSTITIAL →
  SUBSTITUTION ≠ INTERSTITIAL →
  ∀ constructor,
    (defect_type configuration = VACANCY ∧ constructor = VacancyBuilder)
    ∨ (defect_type configuration = SUBSTITUTION
       ∧ constructor = SubstitutionBuilder)
    ∨ (defect_type configuration = INTERSTITIAL
       ∧ constructor = InterstitialBuilder) →
    create_defect VACANCY SUBSTITUTION INTERSTITIAL
      PointDefectBuilderParameters
      VacancyBuilder SubstitutionBuilder InterstitialBuilder
      configuration builder_parameters
    = if builder_truth (constructor builder_parameters)
      then get_material (constructor builder_parameters) configuration
      else Ok (crystal configuration).
Proof.
  intros Hvs Hvi Hsi constructor Hcase.
  unfold create_defect, dict_getitem, DEFECT_BUILDER_FACTORY.
  rewrite !dict_get_set. simpl.
  destruct Hcase as [[-> ->]|[[-> ->]|[-> ->]]].
  - rewrite decide_False by done. rewrite decide_False by done.
    by rewrite decide_True.
  - rewrite decide_False by done. by rewrite decide_True.
  - by rewrite decide_True.
Qed.
End DefectDispatchByType.

Lemma create_defect_dispatches_by_type_witness :
  sample_create_defect (mkConfiguration section SampleSubstitution)
  = Ok (mkMaterial "substitution" (basis section)).
Proof.
  apply (create_defect_dispatches_by_type SampleVacancy SampleSubstitution
           SampleInterstitial unit
           (sample_builder "vacancy") (sample_builder "substitution")
           (sample_builder "interstitial")
           (mkConfiguration section SampleSubstitution) None
           ltac:(discriminate) ltac:(discriminate) ltac:(discriminate)
           (sample_builder "substitution")).
  right. left. split; reflexivity.
Defined.

Lemma first_match_split {A} (P : A → Prop) `{∀ x, Decision (P x)}
    (l : list A) :
  (∃ x, x ∈ l ∧ P x) →
  ∃ before x after,
    l = before ++ x :: after ∧ P x ∧ ∀ y, y ∈ before → ¬ P y.
Proof.
  induction l as [|z l IH]; intros (x & Hx & HP).
  - by apply elem_of_nil in Hx.
  - destruct (decide (P z)) as [HPz|HPz].
    + exists [], z, l. split; [done|]. split; [done|].
      intros y Hy. by apply elem_of_nil in Hy.
    + apply elem_of_cons in Hx as [->|Hx]; [done|].
      destruct IH as (before & x' & after & -> & HP' & Hbefore); [by eauto|].
      exists (z :: before), x', after. split; [done|]. split; [done|].
      intros y [->|Hy]%elem_of_cons; [done|by apply Hbefore].
Qed.

Lemma get_slab_with_termination_loop_first {Structure Matrix : Type}
    (label_termination : Structure → string)
    (from_pymatgen : Structure → Material)
    (create_supercell : Material → Matrix → Material)
    (xy : Matrix) before slab after :
  (∀ s, s ∈ before → label_termination s ≠ label_termination slab) →
  get_slab_with_termination_loop label_termination from_pymatgen
    create_supercell xy (before ++ slab :: after) (label_termination slab)
  = Some (create_supercell (from_pymatgen slab) xy).
Proof.
  intros Hbefore. induction before as [|s before IH]; simpl.
  - by rewrite decide_True.
  - rewrite decide_False by (apply Hbefore; left).
    apply IH. intros s' Hs'. apply Hbefore. by right.
Qed.

(** X17.  Every termination that [get_terminations] lists is answered by
    [get_slab_with_termination] with a Material, never with [None]: the one
    built from the first generated structure carrying that label; and if
    that structure is a true one, the Material is one of [self.slabs]. *)
Theorem listed_termination_has_slab {Structure Matrix : Type}
    (label_termination : Structure → string)
    (from_pymatgen : Structure → Material)
    (create_supercell : Material → Matrix → Material)
    (structure_truth : Structure → bool)
    (list_set : list string → list string)
    (self : SlabGenerator Structure Matrix) (t : string) :
  set_semantics list_set →
  t ∈ get_terminations label_termination structure_truth list_set self →
  ∃ before slab after,
    _slab_structures self = before ++ slab :: after
    ∧ label_termination slab = t
    ∧ (∀ s, s ∈ before → label_termination s ≠ t)
    ∧ get_slab_with_termination label_termination from_pymatgen
        create_supercell self t
      = Some (create_supercell (from_pymatgen slab)
                               (xy_supercell_matrix self))
    ∧ (structure_truth slab = true →
       create_supercell (from_pymatgen slab) (xy_supercell_matrix self)
       ∈ SlabGenerator_slabs from_pymatgen create_supercell
           structure_truth self).
Proof.
  intros Hset Ht. unfold get_terminations in Ht.
  destruct (Hset (label_termination
                  <$> filter (λ slab, structure_truth slab)
                             (_slab_structures self))) as [_ Hmem].
  apply (proj1 (Hmem t)) in Ht.
  apply list_elem_of_fmap in Ht as (s0 & -> & [_ Hs0]%list_elem_of_filter).
  destruct (first_match_split
              (λ s, label_termination s = label_termination s0)
              (_slab_structures self))
    as (before & slab & after & Hsplit & Hlabel & Hbefore); [by eauto|].
  exists before, slab, after. split; [done|]. split; [done|].
  split; [done|]. split.
  - unfold get_slab_with_termination. rewrite Hsplit, <- Hlabel.
    apply get_slab_with_termination_loop_first.
    intros s Hs. rewrite Hlabel. by apply Hbefore.
  - intros Htruth. unfold SlabGenerator_slabs.
    apply list_elem_of_fmap. exists slab. split; [done|].
    apply list_elem_of_filter. split; [by rewrite Htruth|].
    rewrite Hsplit. apply elem_of_app. right. left.
Qed.

Lemma listed_termination_has_slab_witness :
  sample_get_slab "Si_P4/mmm_2"
  = Some (mkMaterial "Si_P4/mmm_2" (mkBasis [mkItem 1%nat "Si"%string] [] [])).
Proof.
  destruct (listed_termination_has_slab fst
              (λ s : string * nat,
                 mkMaterial (fst s) (mkBasis [mkItem (snd s) "Si"%string] [] []))
              (λ m (_ : unit), m) (λ _, true) remove_dups
              sample_slab_generator "Si_P4/mmm_2"
              set_semantics_remove_dups)
    as (before & slab & after & Hsplit & Hlabel & Hbefore & Hget & _).
  - apply (bool_decide_unpack _). by vm_compute.
  - unfold sample_get_slab. rewrite Hget.
    destruct before as [|s0 before].
    + injection Hsplit as <- _. discriminate Hlabel.
    + injection Hsplit as <- Hsplit.
      destruct before as [|s1 before].
      * by injection Hsplit as <- _.
      * injection Hsplit as <- Hsplit.
        exfalso. apply (Hbefore ("Si_P4/mmm_2"%string, 1%nat)); [|done].
        right. left.
Defined.

(* ===================================================================== *)
(** * InterfaceSettings and the ZSLParameters object it is given *)
(* ===================================================================== *)

(** X18.  [InterfaceSettings] built with a [max_area] other than the
    default 400 writes it into the [ZSLParameters] object it was given, in
    place and without touching any other object; every settings object
    built later on the same [ZSLParameters] object with the default
    [max_area] (as all calls that rely on the shared default argument are)
    leaves the store alone, so its own [max_area] is 400 while its
    [ZSLParameters.max_area] is still the earlier value. *)
Theorem InterfaceSettings_init_overrides_zsl_in_place
    (σ : ZSLStore) (zsl : Ref) (z : ZSLParameters)
    (substrate layer : SlabParameters) (max_area distance_z_ : Q)
    (use_conventional_cell_ : bool) :
  σ !! zsl = Some z →
  ¬ (max_area == DEFAULT_MAX_AREA)%Q →
  ∃ s1 σ1,
    InterfaceSettings_init substrate layer max_area distance_z_
      use_conventional_cell_ zsl σ = (s1, σ1)
    ∧ settings_ZSLParameters s1 = zsl
    ∧ σ1 !! zsl = Some (set_zsl_max_area max_area z)
    ∧ (∀ other, other ≠ zsl → σ1 !! other = σ !! other)
    ∧ ∀ substrate' layer' distance_z' use_conventional_cell',
        ∃ s2,
          InterfaceSettings_init substrate' layer' DEFAULT_MAX_AREA
            distance_z' use_conventional_cell' zsl σ1 = (s2, σ1)
          ∧ settings_max_area s2 = DEFAULT_MAX_AREA
          ∧ zsl_max_area <$> σ1 !! settings_ZSLParameters s2
            = Some max_area.
Proof.
  intros Hz Hne. unfold InterfaceSettings_init.
  assert (Hneq : Qeq_bool max_area DEFAULT_MAX_AREA = false).
  { destruct (Qeq_bool max_area DEFAULT_MAX_AREA) eqn:Heq; [|done].
    by apply Qeq_bool_iff in Heq. }
  rewrite Hneq. simpl. eexists _, _. split; [reflexivity|]. simpl.
  split; [done|]. split; [by rewrite lookup_alter_eq, Hz|].
  split; [by intros other Hother; rewrite lookup_alter_ne|].
  intros substrate' layer' distance_z' use_conventional_cell'.
  eexists. split; [reflexivity|]. simpl. split; [done|].
  by rewrite lookup_alter_eq, Hz.
Qed.

Lemma InterfaceSettings_init_overrides_zsl_in_place_witness :
  ∃ s1 σ1 s2,
    InterfaceSettings_init (mkSlabParameters (0, 0, 1) 3)
      (mkSlabParameters (0, 0, 1) 1) 100 3 true 0%nat
      {[ 0%nat := ZSLParameters_init None ]} = (s1, σ1)
    ∧ InterfaceSettings_init (mkSlabParameters (0, 0, 1) 3)
        (mkSlabParameters (0, 0, 1) 1) DEFAULT_MAX_AREA 3 true 0%nat σ1
      = (s2, σ1)
    ∧ zsl_max_area <$> σ1 !! settings_ZSLParameters s2 = Some 100%Q.
Proof.
  destruct (InterfaceSettings_init_overrides_zsl_in_place
              {[ 0%nat := ZSLParameters_init None ]} 0%nat
              (ZSLParameters_init None)
              (mkSlabParameters (0, 0, 1) 3) (mkSlabParameters (0, 0, 1) 1)
              100 3 true)
    as (s1 & σ1 & Hrun1 & _ & _ & _ & Hlater).
  - apply lookup_singleton_eq.
  - intros Heq. vm_compute in Heq. discriminate Heq.
  - destruct (Hlater (mkSlabParameters (0, 0, 1) 3)
                (mkSlabParameters (0, 0, 1) 1) 3%Q true)
      as (s2 & Hrun2 & _ & Hzsl).
    exists s1, σ1, s2. split; [exact Hrun1|]. split; [exact Hrun2|exact Hzsl].
Defined.

(** The other branch: with the default [max_area] the object is left as it
    is, whatever its own [max_area]. *)
Lemma InterfaceSettings_init_default_area_keeps_zsl
    (σ : ZSLStore) (zsl : Ref) (substrate layer : SlabParameters)
    (max_area distance_z_ : Q) (use_conventional_cell_ : bool) :
  (max_area == DEFAULT_MAX_AREA)%Q →
  (InterfaceSettings_init substrate layer max_area distance_z_
     use_conventional_cell_ zsl σ).2 = σ.
Proof.
  intros Heq%Qeq_bool_iff. unfold InterfaceSettings_init. by rewrite Heq.
Qed.

(* ===================================================================== *)
(** * add_data_entries with de-duplication switched off *)
(* ===================================================================== *)

(** X19.  With sorting on and de-duplication off, [add_data_entries] on a
    well-formed holder loses no entry: the group of every termination of the
    entries becomes a rearrangement of its old content together with the
    entries of that termination, in (site count, strain) order; groups of
    other terminations are only sorted. *)
Theorem add_data_entries_sorted_keeps_every_entry
    (list_set : list TerminationType → list TerminationType) entries self :
  set_semantics list_set →
  holder_inv self →
  ∃ self',
    add_data_entries list_set entries true false self = (Ok tt, self')
    ∧ holder_inv self'
    ∧ (∀ t, t ∈ termination <$> entries →
         ∃ l, dict_get (data self') t = Some l
              ∧ l ≡ₚ default [] (dict_get (data self) t)
                     ++ filter (λ entry, termination entry = t) entries
              ∧ StronglySorted size_then_strain l)
    ∧ (∀ t old, t ∉ termination <$> entries →
         dict_get (data self) t = Some old →
         ∃ l, dict_get (data self') t = Some l
              ∧ l ≡ₚ old ∧ StronglySorted size_then_strain l).
Proof.
  intros Hset Hinv. unfold add_data_entries.
  destruct (Hset (termination <$> entries)) as [Hnd Hmem].
  destruct (add_interfaces_loop_content
              (λ t, filter (λ entry, termination entry = t) entries)
              (list_set (termination <$> entries)) self Hinv Hnd)
    as (self1 & Hrun1 & Hinv1 & Hts1 & Hget1).
  rewrite (bind_ok _ _ _ _ _ Hrun1).
  destruct (sort_interfaces_for_all_terminations_run self1 Hinv1)
    as (self2 & Hrun2 & Hinv2 & Hts2 & Hget2).
  rewrite (bind_ok _ _ _ _ _ Hrun2).
  exists self2. split; [done|]. split; [done|]. split.
  - intros t Ht. eexists. rewrite Hget2, Hget1.
    rewrite bool_decide_eq_true_2 by (by apply Hmem).
    split; [reflexivity|].
    split; [by rewrite !py_sorted_perm|apply two_pass_sort_order].
  - intros t old Ht Hold. eexists. rewrite Hget2, Hget1.
    rewrite bool_decide_eq_false_2 by (by rewrite Hmem).
    rewrite Hold. split; [reflexivity|].
    split; [by rewrite !py_sorted_perm|apply two_pass_sort_order].
Qed.

Lemma add_data_entries_sorted_keeps_every_entry_witness :
  ∃ self' l,
    add_data_entries remove_dups [cand_1_00001; cand_1_00000] true false
      holder_two_sizes = (Ok tt, self')
    ∧ dict_get (data self') INTERFACE_TERMINATION = Some l
    ∧ l ≡ₚ [cand_large_relaxed; cand_small_strained;
            cand_1_00001; cand_1_00000].
Proof.
  destruct (add_data_entries_sorted_keeps_every_entry remove_dups
              [cand_1_00001; cand_1_00000] holder_two_sizes
              set_semantics_remove_dups holder_two_sizes_inv)
    as (self' & Hrun & _ & Hin & _).
  destruct (Hin INTERFACE_TERMINATION) as (l & Hl & Hperm & _).
  - apply (bool_decide_unpack _). by vm_compute.
  - exists self', l. split; [exact Hrun|]. split; [exact Hl|exact Hperm].
Defined.

(* ===================================================================== *)
(** * add_data_entries keeps the holder well-formed *)
(* ===================================================================== *)

Lemma add_interfaces_loop_prefix (group : TerminationType → list Interface)
    ts self :
  holder_inv self →
  ∃ self',
    for_each ts (λ t, add_interfaces_for_termination t (group t)) self
    = (Ok tt, self')
    ∧ holder_inv self'
    ∧ terminations self `prefix_of` terminations self'.
Proof.
  revert self. induction ts as [|t ts IH]; intros self Hinv; simpl.
  - by exists self.
  - destruct (add_interfaces_for_termination_full self t (group t) Hinv)
      as (self1 & Hrun1 & Hinv1 & Hts1 & _).
    destruct (IH self1 Hinv1) as (self' & Hrun & Hinv' & Hpre).
    exists self'. rewrite (bind_ok _ _ _ _ _ Hrun1).
    split; [done|]. split; [done|].
    etrans; [|exact Hpre]. rewrite Hts1.
    case_bool_decide; [done|by apply prefix_app_r].
Qed.

(** X20.  On a well-formed holder [add_data_entries] never raises and keeps
    the holder well-formed, for every combination of its two flags and
    every iteration order (even a repeating one) of the set of
    terminations; terminations already listed keep their positions. *)
Theorem add_data_entries_keeps_holder_well_formed
    (list_set : list TerminationType → list TerminationType)
    entries (sort_flag dedupe_flag : bool) self :
  holder_inv self →
  ∃ self',
    add_data_entries list_set entries sort_flag dedupe_flag self
    = (Ok tt, self')
    ∧ holder_inv self'
    ∧ terminations self `prefix_of` terminations self'.
Proof.
  intros Hinv. unfold add_data_entries.
  destruct (add_interfaces_loop_prefix
              (λ t, filter (λ entry, termination entry = t) entries)
              (list_set (termination <$> entries)) self Hinv)
    as (self1 & Hrun1 & Hinv1 & Hpre1).
  rewrite (bind_ok _ _ _ _ _ Hrun1).
  destruct (sort_interfaces_for_all_terminations_run self1 Hinv1)
    as (self2 & Hrun2 & Hinv2 & Hts2 & _).
  destruct (remove_duplicate_interfaces_run self1 Hinv1)
    as (self3 & Hrun3 & Hinv3 & Hts3 & _).
  destruct (remove_duplicate_interfaces_run self2 Hinv2)
    as (self4 & Hrun4 & Hinv4 & Hts4 & _).
  destruct sort_flag, dedupe_flag.
  - exists self4. rewrite (bind_ok _ _ _ _ _ Hrun2).
    split; [done|]. split; [done|]. by rewrite Hts4, Hts2.
  - exists self2. rewrite (bind_ok _ _ _ _ _ Hrun2).
    split; [done|]. split; [done|]. by rewrite Hts2.
  - exists self3. unfold bind at 1, ret.
    split; [done|]. split; [done|]. by rewrite Hts3.
  - exists self1. unfold bind, ret. done.
Qed.

Lemma add_data_entries_keeps_holder_well_formed_witness :
  ∃ self',
    add_data_entries (λ ts, ts ++ ts) [cand_1_00001; cand_1_00000]
      false true holder_two_sizes = (Ok tt, self')
    ∧ holder_inv self'.
Proof.
  destruct (add_data_entries_keeps_holder_well_formed (λ ts, ts ++ ts)
              [cand_1_00001; cand_1_00000] false true holder_two_sizes
              holder_two_sizes_inv)
    as (self' & Hrun & Hinv & _).
  exists self'. split; [exact Hrun|exact Hinv].
Defined.
